(** * ad2web.decoder: the AlarmDecoder session, its event recorder,
      the broadcast fan-out, the reconnection monitor and the device tests

    A shallow embedding of [src/ad2web/decoder.py].  The Python object
    [Decoder] becomes a record, the collaborators it talks to (settings,
    zones, notifications, event log, socket.io listeners, the device
    transport) become an environment of behaviours, and every method is
    a computation in a state-and-exception monad that threads the world
    through the calls in the order the source makes them. *)

From Stdlib Require Import Ascii String ZArith.
From stdpp Require Import base strings gmap list pretty.

Open Scope Z_scope.
Open Scope string_scope.
Open Scope list_scope.

(** ** Python values and exceptions *)

(** The values that travel through settings and through the keyword
    arguments of the device callbacks. *)
Inductive Value :=
  | VNone
  | VBool (b : bool)
  | VInt (z : Z)
  | VStr (s : string).

#[global] Instance Value_eq_dec : EqDecision Value.
Proof. solve_decision. Defined.

(** Python truthiness: [None], [False], [0] and the empty string are
    false. *)
Definition truthy (v : Value) : bool :=
  match v with
  | VNone => false
  | VBool b => b
  | VInt z => negb (Z.eqb z 0)
  | VStr s => negb (String.eqb s "")
  end.

(** [str(v)], as [str.format] renders a field. *)
Definition py_str (v : Value) : string :=
  match v with
  | VNone => "None"
  | VBool true => "True"
  | VBool false => "False"
  | VInt z => pretty z
  | VStr s => s
  end.

(** The exceptions the module names or can meet.  All of them derive
    from [Exception]. *)
Inductive Exn :=
  | NoDeviceError (msg : string)
  | SSLError (fn message : string)
  | CommError (msg : string)
  | NoResultFound
  | MultipleResultsFound
  | KeyError (key : string)
  | ValueError (msg : string)
  | AttributeError (msg : string)
  | RuntimeError (msg : string)
  | OtherError (msg : string).

#[global] Instance Exn_eq_dec : EqDecision Exn.
Proof. solve_decision. Defined.

(** What a call to a collaborator does: it returns or it raises. *)
Inductive Outcome (A : Type) :=
  | Returns (a : A)
  | Raises (e : Exn).
Arguments Returns {A} a.
Arguments Raises {A} e.

(** ** Event kinds ([log.constants]) and the module's tables *)

Inductive EventType :=
  | ARM | DISARM | POWER_CHANGED | ALARM | FIRE | BYPASS | BOOT
  | CONFIG_RECEIVED | ZONE_FAULT | ZONE_RESTORE | LOW_BATTERY | PANIC
  | RELAY_CHANGED.

#[global] Instance EventType_eq_dec : EqDecision EventType.
Proof. solve_decision. Defined.

Definition CRITICAL_EVENTS : list EventType :=
  [POWER_CHANGED; ALARM; BYPASS; ARM; DISARM; ZONE_FAULT;
   ZONE_RESTORE; FIRE; PANIC].

Definition EVENTS (e : EventType) : string :=
  match e with
  | ARM => "on_arm"
  | DISARM => "on_disarm"
  | POWER_CHANGED => "on_power_changed"
  | ALARM => "on_alarm"
  | FIRE => "on_fire"
  | BYPASS => "on_bypass"
  | BOOT => "on_boot"
  | CONFIG_RECEIVED => "on_config_received"
  | ZONE_FAULT => "on_zone_fault"
  | ZONE_RESTORE => "on_zone_restore"
  | LOW_BATTERY => "on_low_battery"
  | PANIC => "on_panic"
  | RELAY_CHANGED => "on_relay_changed"
  end.

Definition EVENT_MESSAGES (e : EventType) : string :=
  match e with
  | ARM => "The alarm was armed."
  | DISARM => "The alarm was disarmed."
  | POWER_CHANGED => "Power status has changed to {status}."
  | ALARM => "Alarm is triggered!"
  | FIRE => "There is a fire!"
  | BYPASS => "A zone has been bypassed."
  | BOOT => "The AlarmDecoder has finished booting."
  | CONFIG_RECEIVED => "AlarmDecoder has been configured."
  | ZONE_FAULT => "{zone_name} ({zone}) has been faulted."
  | ZONE_RESTORE => "{zone_name} ({zone}) has been restored."
  | LOW_BATTERY => "Low battery detected."
  | PANIC => "Panic!"
  | RELAY_CHANGED => "A relay has changed."
  end.

(** ** [str.format] with keyword arguments

    The templates above use plain named fields only, so this is the
    part of [str.format] that is modelled: text is copied, [{name}] is
    replaced by [str(kwargs[name])], a missing name raises [KeyError],
    and an unmatched brace raises [ValueError].  [field] holds the name
    read so far while the scan is inside braces. *)
Fixpoint format_scan (t : string) (field : option string)
    (kwargs : gmap string Value) : Outcome string :=
  match t with
  | EmptyString =>
      match field with
      | None => Returns ""
      | Some _ => Raises (ValueError "Single '{' encountered in format string")
      end
  | String c t' =>
      match field with
      | None =>
          if Ascii.eqb c "{"%char then format_scan t' (Some "") kwargs
          else if Ascii.eqb c "}"%char then
            Raises (ValueError "Single '}' encountered in format string")
          else
            match format_scan t' None kwargs with
            | Returns r => Returns (String c r)
            | Raises e => Raises e
            end
      | Some name =>
          if Ascii.eqb c "}"%char then
            match kwargs !! name with
            | None => Raises (KeyError name)
            | Some v =>
                match format_scan t' None kwargs with
                | Returns r => Returns (py_str v +:+ r)
                | Raises e => Raises e
                end
            end
          else format_scan t' (Some (name +:+ String c "")) kwargs
      end
  end.

Definition format (template : string) (kwargs : gmap string Value)
    : Outcome string :=
  format_scan template None kwargs.

(** ** Data *)

(** [EventLogEntry(type=..., message=...)]. *)
Record EventLogEntry := {
  entry_type : EventType;
  entry_message : string
}.

(** The socket.io packet built by [_make_packet]. *)
Record Packet := {
  packet_type : string;
  packet_name : string;
  packet_args : string;
  packet_endpoint : string
}.

Inductive LogLevel := INFO | WARNING | ERROR.

Record LogRecord := {
  log_level : LogLevel;
  log_text : string
}.

Inductive DeviceClass := SocketDevice | SerialDevice.

(** The [interface] argument of the device constructor: a serial path,
    or a (host, port) pair. *)
Inductive Interface :=
  | IPath (path : Value)
  | IAddr (host port : Value).

Record Certificate := {
  certificate_obj : string;
  key_obj : string
}.

Inductive ConnState := Unopened | Opened | Closed.

(** The object stored in [Decoder.device]: the [AlarmDecoder] wrapper
    with the transport it was built on. *)
Record Transport := {
  devicetype : DeviceClass;
  interface : Interface;
  ssl : bool;
  ssl_ca : option string;
  ssl_certificate : option string;
  ssl_key : option string;
  events_bound : bool;
  conn : ConnState
}.

Inductive TransportCall :=
  | TConstruct (c : DeviceClass) (i : Interface)
  | TOpen (baudrate : Value)
  | TClose.

(** The attributes of the [Decoder] object. *)
Record Decoder := {
  device : option Transport;
  trigger_reopen_device : bool;
  trigger_restart : bool;
  _last_message : option Z;
  _device_baudrate : Value;
  _device_type : Value;
  _device_location : Value
}.

(** Everything the module reads or writes: the [Decoder], its two
    threads' running flags, and the collaborators' stores. *)
Record World := {
  decoder : Decoder;
  event_thread_running : bool;
  version_thread_running : bool;
  websocket_running : bool;
  clock : Z;
  sockets : list (nat * nat);
  delivered : list (nat * Packet);
  db_pending : list EventLogEntry;
  event_log : list EventLogEntry;
  notified : list (nat * string);
  app_log : list LogRecord;
  transport_calls : list TransportCall
}.

(** Field updates. *)
Definition set_device (v : option Transport) (d : Decoder) : Decoder :=
  {| device := v; trigger_reopen_device := trigger_reopen_device d;
     trigger_restart := trigger_restart d; _last_message := _last_message d;
     _device_baudrate := _device_baudrate d; _device_type := _device_type d;
     _device_location := _device_location d |}.

Definition set_trigger_reopen_device (v : bool) (d : Decoder) : Decoder :=
  {| device := device d; trigger_reopen_device := v;
     trigger_restart := trigger_restart d; _last_message := _last_message d;
     _device_baudrate := _device_baudrate d; _device_type := _device_type d;
     _device_location := _device_location d |}.

Definition set_last_message (v : option Z) (d : Decoder) : Decoder :=
  {| device := device d; trigger_reopen_device := trigger_reopen_device d;
     trigger_restart := trigger_restart d; _last_message := v;
     _device_baudrate := _device_baudrate d; _device_type := _device_type d;
     _device_location := _device_location d |}.

Definition set_device_baudrate (v : Value) (d : Decoder) : Decoder :=
  {| device := device d; trigger_reopen_device := trigger_reopen_device d;
     trigger_restart := trigger_restart d; _last_message := _last_message d;
     _device_baudrate := v; _device_type := _device_type d;
     _device_location := _device_location d |}.

Definition set_device_type (v : Value) (d : Decoder) : Decoder :=
  {| device := device d; trigger_reopen_device := trigger_reopen_device d;
     trigger_restart := trigger_restart d; _last_message := _last_message d;
     _device_baudrate := _device_baudrate d; _device_type := v;
     _device_location := _device_location d |}.

Definition set_device_location (v : Value) (d : Decoder) : Decoder :=
  {| device := device d; trigger_reopen_device := trigger_reopen_device d;
     trigger_restart := trigger_restart d; _last_message := _last_message d;
     _device_baudrate := _device_baudrate d; _device_type := _device_type d;
     _device_location := v |}.

Definition with_conn (c : ConnState) (t : Transport) : Transport :=
  {| devicetype := devicetype t; interface := interface t; ssl := ssl t;
     ssl_ca := ssl_ca t; ssl_certificate := ssl_certificate t;
     ssl_key := ssl_key t; events_bound := events_bound t; conn := c |}.

Definition with_events_bound (t : Transport) : Transport :=
  {| devicetype := devicetype t; interface := interface t; ssl := ssl t;
     ssl_ca := ssl_ca t; ssl_certificate := ssl_certificate t;
     ssl_key := ssl_key t; events_bound := true; conn := conn t |}.

Definition with_ssl (ca cert key : string) (t : Transport) : Transport :=
  {| devicetype := devicetype t; interface := interface t; ssl := true;
     ssl_ca := Some ca; ssl_certificate := Some cert; ssl_key := Some key;
     events_bound := events_bound t; conn := conn t |}.

Definition upd_decoder (f : Decoder → Decoder) (w : World) : World :=
  {| decoder := f (decoder w);
     event_thread_running := event_thread_running w;
     version_thread_running := version_thread_running w;
     websocket_running := websocket_running w; clock := clock w;
     sockets := sockets w; delivered := delivered w;
     db_pending := db_pending w; event_log := event_log w;
     notified := notified w; app_log := app_log w;
     transport_calls := transport_calls w |}.

Definition set_event_thread_running (v : bool) (w : World) : World :=
  {| decoder := decoder w; event_thread_running := v;
     version_thread_running := version_thread_running w;
     websocket_running := websocket_running w; clock := clock w;
     sockets := sockets w; delivered := delivered w;
     db_pending := db_pending w; event_log := event_log w;
     notified := notified w; app_log := app_log w;
     transport_calls := transport_calls w |}.

Definition set_version_thread_running (v : bool) (w : World) : World :=
  {| decoder := decoder w; event_thread_running := event_thread_running w;
     version_thread_running := v;
     websocket_running := websocket_running w; clock := clock w;
     sockets := sockets w; delivered := delivered w;
     db_pending := db_pending w; event_log := event_log w;
     notified := notified w; app_log := app_log w;
     transport_calls := transport_calls w |}.

Definition set_websocket_running (v : bool) (w : World) : World :=
  {| decoder := decoder w; event_thread_running := event_thread_running w;
     version_thread_running := version_thread_running w;
     websocket_running := v; clock := clock w;
     sockets := sockets w; delivered := delivered w;
     db_pending := db_pending w; event_log := event_log w;
     notified := notified w; app_log := app_log w;
     transport_calls := transport_calls w |}.

Definition set_clock (v : Z) (w : World) : World :=
  {| decoder := decoder w; event_thread_running := event_thread_running w;
     version_thread_running := version_thread_running w;
     websocket_running := websocket_running w; clock := v;
     sockets := sockets w; delivered := delivered w;
     db_pending := db_pending w; event_log := event_log w;
     notified := notified w; app_log := app_log w;
     transport_calls := transport_calls w |}.

Definition set_delivered (v : list (nat * Packet)) (w : World) : World :=
  {| decoder := decoder w; event_thread_running := event_thread_running w;
     version_thread_running := version_thread_running w;
     websocket_running := websocket_running w; clock := clock w;
     sockets := sockets w; delivered := v;
     db_pending := db_pending w; event_log := event_log w;
     notified := notified w; app_log := app_log w;
     transport_calls := transport_calls w |}.

Definition set_db (pending log : list EventLogEntry) (w : World) : World :=
  {| decoder := decoder w; event_thread_running := event_thread_running w;
     version_thread_running := version_thread_running w;
     websocket_running := websocket_running w; clock := clock w;
     sockets := sockets w; delivered := delivered w;
     db_pending := pending; event_log := log;
     notified := notified w; app_log := app_log w;
     transport_calls := transport_calls w |}.

Definition set_notified (v : list (nat * string)) (w : World) : World :=
  {| decoder := decoder w; event_thread_running := event_thread_running w;
     version_thread_running := version_thread_running w;
     websocket_running := websocket_running w; clock := clock w;
     sockets := sockets w; delivered := delivered w;
     db_pending := db_pending w; event_log := event_log w;
     notified := v; app_log := app_log w;
     transport_calls := transport_calls w |}.

Definition set_app_log (v : list LogRecord) (w : World) : World :=
  {| decoder := decoder w; event_thread_running := event_thread_running w;
     version_thread_running := version_thread_running w;
     websocket_running := websocket_running w; clock := clock w;
     sockets := sockets w; delivered := delivered w;
     db_pending := db_pending w; event_log := event_log w;
     notified := notified w; app_log := v;
     transport_calls := transport_calls w |}.

Definition set_transport_calls (v : list TransportCall) (w : World) : World :=
  {| decoder := decoder w; event_thread_running := event_thread_running w;
     version_thread_running := version_thread_running w;
     websocket_running := websocket_running w; clock := clock w;
     sockets := sockets w; delivered := delivered w;
     db_pending := db_pending w; event_log := event_log w;
     notified := notified w; app_log := app_log w;
     transport_calls := v |}.

(** ** The collaborators

    None of these is defined in [decoder.py]; each is the behaviour the
    module sees when it makes the call. *)

(** What the transport does when it is closed: whether it reports
    [on_close] to its subscribers, and whether the call raises. *)
Record CloseBehaviour := {
  notifies_close : bool;
  close_result : Outcome unit
}.

Record Env := {
  (** [Setting.get_by_name(name, default).value] reads this store. *)
  settings : gmap string Value;
  (** [Zone.get_name(zone)]. *)
  zone_get_name : Value → Outcome Value;
  (** [NotificationFactory.notifications()]. *)
  notifications : list nat;
  (** [NotificationFactory.create(id).send(text)]. *)
  notifier_send : nat → string → Outcome unit;
  (** [db.session.commit()] of the pending entries. *)
  db_commit : list EventLogEntry → Outcome unit;
  (** [sock.send_packet(packet)]. *)
  send_packet : nat → Packet → Outcome unit;
  (** [jsonpickle.encode(data, unpicklable=False)]. *)
  jsonpickle_encode : gmap string Value → string;
  (** The rows of [Certificate.query.filter_by(name=...)]. *)
  certificates : string → list Certificate;
  (** [device.open(baudrate=...)]: it connects, and then reports
      [on_open], or it raises. *)
  transport_open : Transport → Value → Outcome unit;
  (** [device.close()]. *)
  transport_close : Transport → CloseBehaviour;
  (** [Thread.join(5)] on the two worker threads, as seen by the thread
      that calls [stop]. *)
  join_event_thread : Outcome unit;
  join_version_thread : Outcome unit
}.

(** ** The monad: state, exceptions and process replacement *)

(** A call returns, raises, or (after [os.execv]) never comes back
    because the process image was replaced. *)
Inductive Res (A : Type) :=
  | Ok (a : A)
  | Raise (e : Exn)
  | Replaced.
Arguments Ok {A} a.
Arguments Raise {A} e.
Arguments Replaced {A}.

Definition M (A : Type) : Type := World → World * Res A.

#[global] Instance M_ret : MRet M := λ A a w, (w, Ok a).

#[global] Instance M_bind : MBind M := λ A B f m w,
  match m w with
  | (w', Ok a) => f a w'
  | (w', Raise e) => (w', Raise e)
  | (w', Replaced) => (w', Replaced)
  end.

Definition raise {A} (e : Exn) : M A := λ w, (w, Raise e).

Definition gets {A} (f : World → A) : M A := λ w, (w, Ok (f w)).

Definition modify (f : World → World) : M unit := λ w, (f w, Ok tt).

(** Reading an attribute of the [Decoder] object. *)
Definition self {A} (attr : Decoder → A) : M A := λ w, (w, Ok (attr (decoder w))).

Definition call {A} (o : Outcome A) : M A :=
  match o with
  | Returns a => mret a
  | Raises e => raise e
  end.

(** [try: body except Exception, err: handler(err)].  A handler that
    names one exception class re-raises the others itself. *)
Definition try_except {A} (body : M A) (handler : Exn → M A) : M A := λ w,
  match body w with
  | (w', Raise e) => handler e w'
  | r => r
  end.

(** [for x in xs: body(x)]. *)
Fixpoint for_each {X} (xs : list X) (body : X → M unit) : M unit :=
  match xs with
  | [] => mret tt
  | x :: xs' => body x;; for_each xs' body
  end.

Definition os_execv : M unit := λ w, (w, Replaced).

(** ** The methods of [decoder.py] *)

Section Methods.

Variable env : Env.

(** [Setting.get_by_name(name, default).value]. *)
Definition setting (name : string) (dflt : Value) : Value :=
  default dflt (settings env !! name).

Definition logger (level : LogLevel) (text : string) : M unit :=
  modify (λ w, set_app_log (app_log w ++ [{| log_level := level; log_text := text |}]) w).

Definition time_time : M Z := gets clock.

Definition time_sleep (seconds : Z) : M unit :=
  modify (λ w, set_clock (clock w + seconds) w).

(** [str(err)], as the log lines render an exception. *)
Definition exn_str (e : Exn) : string :=
  match e with
  | NoDeviceError msg => msg
  | SSLError fn message => fn +:+ ": " +:+ message
  | CommError msg => msg
  | NoResultFound => "No row was found for one()"
  | MultipleResultsFound => "Multiple rows were found for one()"
  | KeyError key => key
  | ValueError msg => msg
  | AttributeError msg => msg
  | RuntimeError msg => msg
  | OtherError msg => msg
  end.

(** *** Broadcast fan-out *)

Definition _make_packet (channel data : string) : Packet :=
  {| packet_type := "event"; packet_name := channel; packet_args := data;
     packet_endpoint := "/alarmdecoder" |}.

(** [sock.send_packet(packet)]: the packet reaches the listener unless
    the call raises. *)
Definition sock_send_packet (session sock : nat) (packet : Packet) : M unit :=
  call (send_packet env sock packet);;
  modify (λ w, set_delivered (delivered w ++ [(session, packet)]) w).

(** The loop walks [websocket.sockets] in the dictionary's order; the
    body is not guarded, so the first raise leaves the loop. *)
Definition _broadcast_packet (packet : Packet) : M unit :=
  socks ← gets sockets;
  for_each socks (λ '(session, sock), sock_send_packet session sock packet).

Definition broadcast (channel : string) (data : gmap string Value) : M unit :=
  let obj := jsonpickle_encode env data in
  let packet := _make_packet channel obj in
  _broadcast_packet packet.

(** *** Device notifications *)

Definition _on_device_open : M unit :=
  logger INFO "AlarmDecoder device was opened.";;
  broadcast "device_open" ∅;;
  modify (upd_decoder (set_trigger_reopen_device false)).

Definition _on_device_close : M unit :=
  logger INFO "AlarmDecoder device was closed.";;
  broadcast "device_close" ∅;;
  modify (upd_decoder (set_trigger_reopen_device true)).

(** [kwargs.get('message', None)]. *)
Definition _on_message (ftype : string) (kwargs : gmap string Value) : M unit :=
  try_except
    (broadcast "message"
       (<["message" := default VNone (kwargs !! "message")]>
          (<["message_type" := VStr ftype]> ∅)))
    (λ err, logger ERROR "Error while broadcasting message.").

(** [NotificationFactory.create(id)] followed by [notifier.send(text)]. *)
Definition notify (id : nat) (text : string) : M unit :=
  modify (λ w, set_notified (notified w ++ [(id, text)]) w);;
  call (notifier_send env id text).

Definition db_session_add (entry : EventLogEntry) : M unit :=
  modify (λ w, set_db (db_pending w ++ [entry]) (event_log w) w).

Definition db_session_commit : M unit :=
  pending ← gets db_pending;
  call (db_commit env pending);;
  modify (λ w, set_db [] (event_log w ++ pending) w).

Definition _handle_event (ftype : EventType) (kwargs : gmap string Value)
    : M unit :=
  try_except
    (now ← time_time;
     modify (upd_decoder (set_last_message (Some now)));;
     kwargs ← match kwargs !! "zone" with
              | Some zone =>
                  zone_name ← call (zone_get_name env zone);
                  mret (<["zone_name" := if truthy zone_name then zone_name
                                         else VStr "<unnamed>"]> kwargs)
              | None => mret kwargs
              end;
     event_message ← call (format (EVENT_MESSAGES ftype) kwargs);
     (if bool_decide (ftype ∈ CRITICAL_EVENTS) then
        for_each (notifications env)
          (λ id, notify id ("AlarmDecoder Event: " +:+ event_message))
      else mret tt);;
     db_session_add {| entry_type := ftype; entry_message := event_message |};;
     db_session_commit;;
     broadcast "event" kwargs)
    (λ err, logger ERROR "Error while broadcasting event.").

(** *** Connection lifecycle *)

Definition init : M unit :=
  let device_type := setting "device_type" VNone in
  if truthy device_type
  then modify (upd_decoder (set_trigger_reopen_device true))
  else mret tt.

(** [Certificate.query.filter_by(name=name).one()]. *)
Definition certificate_one (name : string) : M Certificate :=
  match certificates env name with
  | [c] => mret c
  | [] => raise NoResultFound
  | _ => raise MultipleResultsFound
  end.

Definition new_device (c : DeviceClass) (i : Interface) : M Transport :=
  modify (λ w, set_transport_calls (transport_calls w ++ [TConstruct c i]) w);;
  mret {| devicetype := c; interface := i; ssl := false; ssl_ca := None;
          ssl_certificate := None; ssl_key := None; events_bound := false;
          conn := Unopened |}.

(** [bind_events]: the handlers are attached to [self.device]. *)
Definition bind_events : M unit :=
  modify (upd_decoder (λ d, set_device (with_events_bound <$> device d) d)).

(** [self.device.open(baudrate=...)]. *)
Definition device_open (baudrate : Value) : M unit :=
  dev ← self device;
  match dev with
  | None => raise (AttributeError "'NoneType' object has no attribute 'open'")
  | Some t =>
      modify (λ w, set_transport_calls (transport_calls w ++ [TOpen baudrate]) w);;
      call (transport_open env t baudrate);;
      modify (upd_decoder (set_device (Some (with_conn Opened t))));;
      _on_device_open
  end.

Definition open : M unit :=
  modify (upd_decoder (set_device_type (setting "device_type" VNone)));;
  modify (upd_decoder (set_device_location (setting "device_location" VNone)));;
  device_type ← self _device_type;
  device_location ← self _device_location;
  if truthy device_type then
    '(devicetype, interface, use_ssl) ←
      (if bool_decide (device_location = VStr "local") then
         modify (upd_decoder (set_device_baudrate (setting "device_baudrate" VNone)));;
         mret (SerialDevice, IPath (setting "device_path" VNone), VBool false)
       else if bool_decide (device_location = VStr "network") then
         mret (SocketDevice,
               IAddr (setting "device_address" VNone) (setting "device_port" VNone),
               setting "use_ssl" (VBool false))
       else
         mret (SocketDevice, IAddr (VStr "localhost") (VInt 10000), VBool false));
    try_except
      (device ← new_device devicetype interface;
       device ← (if truthy use_ssl then
                   ca_cert ← certificate_one "AlarmDecoder CA";
                   internal_cert ← certificate_one "AlarmDecoder Internal";
                   mret (with_ssl (certificate_obj ca_cert)
                                  (certificate_obj internal_cert)
                                  (key_obj internal_cert) device)
                 else mret device);
       modify (upd_decoder (set_device (Some device)));;
       bind_events;;
       baudrate ← self _device_baudrate;
       device_open baudrate)
      (λ err,
         match err with
         | NoDeviceError msg =>
             logger WARNING ("Open failed: " +:+ msg);; raise err
         | SSLError fn message =>
             logger WARNING ("SSL connection failed: " +:+ fn +:+ " - " +:+ message);;
             raise err
         | _ => raise err
         end)
  else mret tt.

Definition close : M unit :=
  dev ← self device;
  match dev with
  | Some t =>
      modify (λ w, set_transport_calls (transport_calls w ++ [TClose]) w);;
      modify (upd_decoder (set_device (Some (with_conn Closed t))));;
      (if notifies_close (transport_close env t) then _on_device_close else mret tt);;
      call (close_result (transport_close env t))
  | None => mret tt
  end.

Definition stop (restart : bool) : M unit :=
  logger INFO "Stopping service..";;
  close;;
  modify (set_event_thread_running false);;
  modify (set_version_thread_running false);;
  (if restart then
     try_except
       (call (join_event_thread env);; call (join_version_thread env))
       (λ err, match err with RuntimeError _ => mret tt | _ => raise err end)
   else mret tt);;
  modify (set_websocket_running false);;
  if restart then logger INFO "Restarting service..";; os_execv else mret tt.

(** *** The reconnection monitor: [DecoderThread] *)

Definition TIMEOUT : Z := 5.

(** The [try] block of the loop body. *)
Definition run_body : M unit :=
  reopen ← self trigger_reopen_device;
  (if reopen : bool then
     logger INFO "Attempting to reconnect to the AlarmDecoder";;
     try_except open
       (λ err, match err with
               | NoDeviceError msg => logger ERROR ("Device not found: " +:+ msg)
               | _ => raise err
               end)
   else mret tt);;
  restart ← self trigger_restart;
  (if restart : bool then
     logger INFO "Restarting service..";; stop true
   else mret tt);;
  time_sleep TIMEOUT.

(** One pass through the body of [while self._running]. *)
Definition run_iteration : M unit :=
  try_except run_body
    (λ err, logger ERROR ("Error in DecoderThread: " +:+ exn_str err)).

(** How a bounded run of the loop ends: the [while] test failed and
    [run] returned, or the iterations allowed were used up with the
    thread still looping. *)
Inductive LoopEnd := Exited | StillLooping.

Fixpoint run_loop (iterations : nat) : M LoopEnd :=
  match iterations with
  | O => mret StillLooping
  | S n =>
      running ← gets event_thread_running;
      if running : bool then run_iteration;; run_loop n else mret Exited
  end.

Definition run (iterations : nat) : M LoopEnd :=
  modify (set_event_thread_running true);;
  run_loop iterations.

End Methods.

(** ** The device tests: [DecoderNamespace._test_config], [_test_send]
       and [_test_receive]

    Each test arms a [threading.Timer] that calls [on_timeout] from its
    own thread, and attaches a callback that the device's reader thread
    calls when the awaited event arrives.  The two handlers are short
    straight-line programs over the same three objects (the timer, the
    event's handler list, the listeners); they are kept here as
    statement lists so that a schedule can run them one statement at a
    time. *)

Module Diagnostics.

Inductive TestName := Config | Send | Recv.

Inductive TestResult := PASS | FAIL | TIMEOUT.

(** The payload of one [broadcast('test', ...)]. *)
Record TestReport := {
  test : TestName;
  results : TestResult;
  details : string
}.

(** A [threading.Timer] after [start()]: still waiting, cancelled
    before the interval elapsed, or past the interval with its function
    called.  [cancel()] has an effect only on a waiting timer. *)
Inductive TimerState := Waiting | Cancelled | Fired.

Inductive Stmt :=
  | TimerCancel                  (* timer.cancel() *)
  | Broadcast (r : TestReport)   (* self._alarmdecoder.broadcast('test', r) *)
  | IfRegistered                 (* if callback in handlers: (guards the next statement) *)
  | Remove.                      (* handlers.remove(callback) *)

Definition on_timeout (name : TestName) : list Stmt :=
  [Broadcast {| test := name; results := TIMEOUT; details := "Test timed out." |};
   IfRegistered; Remove].

Definition on_config_received : list Stmt :=
  [TimerCancel;
   Broadcast {| test := Config; results := PASS; details := "" |};
   IfRegistered; Remove].

Definition on_sending_received (status : bool) : list Stmt :=
  [TimerCancel;
   IfRegistered; Remove;
   Broadcast (if status
              then {| test := Send; results := PASS; details := "" |}
              else {| test := Send; results := FAIL;
                      details := "Check wiring and that the correct keypad address is being used." |})].

Definition on_message : list Stmt :=
  [TimerCancel;
   IfRegistered; Remove;
   Broadcast {| test := Recv; results := PASS; details := "" |}].

(** The callback a test attaches; [status] is the argument the device
    passes to [on_sending_received]. *)
Definition callback (name : TestName) (status : bool) : list Stmt :=
  match name with
  | Config => on_config_received
  | Send => on_sending_received status
  | Recv => on_message
  end.

Record TestState := {
  timer : TimerState;
  (** the handler list of the awaited event, as closure identities *)
  handlers : list nat;
  (** the reports broadcast so far *)
  reports : list TestReport;
  (** successful [remove] calls, and the [ValueError]s of the others *)
  removed : nat;
  errors : list Exn;
  (** the statements the timer thread still has to run; [None] until
      the interval has elapsed *)
  timer_thread : option (list Stmt);
  (** the statements the device's reader thread still has to run in
      the callback; empty when it is not inside it *)
  device_thread : list Stmt
}.

Definition fresh (others : list nat) : TestState :=
  {| timer := Cancelled; handlers := others; reports := []; removed := 0;
     errors := []; timer_thread := None; device_thread := [] |}.

(** [list.remove(x)]: the first occurrence goes. *)
Fixpoint remove_first (x : nat) (l : list nat) : list nat :=
  match l with
  | [] => []
  | y :: l' => if bool_decide (x = y) then l' else y :: remove_first x l'
  end.

Definition registered (cb : nat) (st : TestState) : bool :=
  bool_decide (cb ∈ handlers st).

Definition with_timer (t : TimerState) (st : TestState) : TestState :=
  {| timer := t; handlers := handlers st; reports := reports st;
     removed := removed st; errors := errors st;
     timer_thread := timer_thread st; device_thread := device_thread st |}.

Definition with_threads (tt : option (list Stmt)) (dt : list Stmt)
    (st : TestState) : TestState :=
  {| timer := timer st; handlers := handlers st; reports := reports st;
     removed := removed st; errors := errors st;
     timer_thread := tt; device_thread := dt |}.

Definition timer_cancel (st : TestState) : TestState :=
  match timer st with
  | Waiting => with_timer Cancelled st
  | _ => st
  end.

Definition report (r : TestReport) (st : TestState) : TestState :=
  {| timer := timer st; handlers := handlers st; reports := reports st ++ [r];
     removed := removed st; errors := errors st;
     timer_thread := timer_thread st; device_thread := device_thread st |}.

Definition register (cb : nat) (st : TestState) : TestState :=
  {| timer := timer st; handlers := handlers st ++ [cb]; reports := reports st;
     removed := removed st; errors := errors st;
     timer_thread := timer_thread st; device_thread := device_thread st |}.

(** [handlers.remove(cb)]; Python raises [ValueError] when [cb] is not
    in the list. *)
Definition remove (cb : nat) (st : TestState) : TestState :=
  if registered cb st then
    {| timer := timer st; handlers := remove_first cb (handlers st);
       reports := reports st; removed := S (removed st); errors := errors st;
       timer_thread := timer_thread st; device_thread := device_thread st |}
  else
    {| timer := timer st; handlers := handlers st; reports := reports st;
       removed := removed st;
       errors := errors st ++ [ValueError "list.remove(x): x not in list"];
       timer_thread := timer_thread st; device_thread := device_thread st |}.

(** One statement of a handler: the state after it, and the statements
    the thread goes on with. *)
Definition exec (cb : nat) (prog : list Stmt) (st : TestState)
    : TestState * list Stmt :=
  match prog with
  | [] => (st, [])
  | TimerCancel :: rest => (timer_cancel st, rest)
  | Broadcast r :: rest => (report r st, rest)
  | IfRegistered :: rest => (st, if registered cb st then rest else tail rest)
  | Remove :: rest =>
      (remove cb st, if registered cb st then rest else [])
  end.

(** What a schedule is made of: the timer's interval elapses, the device
    emits the awaited event, or one of the two threads runs its next
    statement. *)
Inductive Tick :=
  | Expire
  | Emit (status : bool)
  | StepTimer
  | StepDevice.

Definition tick (name : TestName) (cb : nat) (t : Tick) (st : TestState)
    : TestState :=
  match t with
  | Expire =>
      (* Timer.run: the wait is over; the function is called unless
         cancel() came first *)
      match timer_thread st, timer st with
      | None, Waiting =>
          with_threads (Some (on_timeout name)) (device_thread st)
            (with_timer Fired st)
      | None, _ => with_threads (Some []) (device_thread st) st
      | Some _, _ => st
      end
  | Emit status =>
      (* the reader thread fires the event: it calls the handlers that
         are in the list at that moment *)
      match device_thread st with
      | [] =>
          if registered cb st
          then with_threads (timer_thread st) (callback name status) st
          else st
      | _ => st
      end
  | StepTimer =>
      match timer_thread st with
      | Some prog =>
          let '(st', rest) := exec cb prog st in
          with_threads (Some rest) (device_thread st') st'
      | None => st
      end
  | StepDevice =>
      let '(st', rest) := exec cb (device_thread st) st in
      with_threads (timer_thread st') rest st'
  end.

Definition run_schedule (name : TestName) (cb : nat) (schedule : list Tick)
    (st : TestState) : TestState :=
  foldl (λ st t, tick name cb t st) st schedule.

(** The [except Exception] block the three tests share.  Without a
    device, reading [device.on_...] in the guard raises again and the
    test method is left before its broadcast. *)
Definition sync_failed (name : TestName) (device_present : bool) (cb : nat)
    (st : TestState) : TestState * Res unit :=
  let st := timer_cancel st in
  if device_present then
    let st := if registered cb st then remove cb st else st in
    (report {| test := name; results := FAIL;
               details := "There was an error sending the command to the device." |} st,
     Ok tt)
  else (st, Raise (AttributeError "'NoneType' object has no attribute")).

(** [_test_config]: [prepare] is the outcome of reading the settings
    and assigning them to the device, [save_config] that of
    [device.save_config()]. *)
Definition _test_config (device_present : bool)
    (prepare save_config : Outcome unit) (cb : nat) (st : TestState)
    : TestState * Res unit :=
  let st := with_timer Waiting st in
  if device_present then
    match prepare with
    | Returns _ =>
        let st := register cb st in
        match save_config with
        | Returns _ => (st, Ok tt)
        | Raises _ => sync_failed Config device_present cb st
        end
    | Raises _ => sync_failed Config device_present cb st
    end
  else sync_failed Config device_present cb st.

(** [_test_send] and [_test_receive]: [send] is the outcome of
    [device.send("*\r")]. *)
Definition _test_send (device_present : bool) (send : Outcome unit)
    (cb : nat) (st : TestState) : TestState * Res unit :=
  let st := with_timer Waiting st in
  if device_present then
    let st := register cb st in
    match send with
    | Returns _ => (st, Ok tt)
    | Raises _ => sync_failed Send device_present cb st
    end
  else sync_failed Send device_present cb st.

Definition _test_receive (device_present : bool) (send : Outcome unit)
    (cb : nat) (st : TestState) : TestState * Res unit :=
  let st := with_timer Waiting st in
  if device_present then
    let st := register cb st in
    match send with
    | Returns _ => (st, Ok tt)
    | Raises _ => sync_failed Recv device_present cb st
    end
  else sync_failed Recv device_present cb st.

(** The synchronous part of a test, by name. *)
Definition start (name : TestName) (device_present : bool)
    (prepare command : Outcome unit) (cb : nat) (st : TestState)
    : TestState * Res unit :=
  match name with
  | Config => _test_config device_present prepare command cb st
  | Send => _test_send device_present command cb st
  | Recv => _test_receive device_present command cb st
  end.

End Diagnostics.

(** ** Concrete scenarios

    A small installation used to run the model: two listeners, two
    notification targets, zone 7 named "Front Door", a network device
    without TLS.  The arguments select what goes wrong. *)

Definition quiet_decoder : Decoder :=
  {| device := None; trigger_reopen_device := true; trigger_restart := false;
     _last_message := None; _device_baudrate := VInt 115200;
     _device_type := VNone; _device_location := VNone |}.

Definition quiet_world : World :=
  {| decoder := quiet_decoder; event_thread_running := true;
     version_thread_running := true; websocket_running := true;
     clock := 1000; sockets := [(1, 101); (2, 102)]%nat; delivered := [];
     db_pending := []; event_log := []; notified := []; app_log := [];
     transport_calls := [] |}.

Definition network_settings (use_ssl : bool) : gmap string Value :=
  <["device_type" := VStr "AD2PI"]>
    (<["device_location" := VStr "network"]>
       (<["device_address" := VStr "10.0.0.5"]>
          (<["device_port" := VInt 10000]>
             (<["use_ssl" := VBool use_ssl]> ∅)))).

(** A transport that reports [on_close] only when it was open. *)
Definition close_once (t : Transport) : CloseBehaviour :=
  {| notifies_close := match conn t with Opened => true | _ => false end;
     close_result := Returns tt |}.

(** A transport that reports [on_close] on every call. *)
Definition close_always (t : Transport) : CloseBehaviour :=
  {| notifies_close := true; close_result := Returns tt |}.

Definition scenario (store : gmap string Value)
    (failing_notifier failing_sock : option nat)
    (opening : Outcome unit) (closing : Transport → CloseBehaviour) : Env :=
  {| settings := store;
     zone_get_name := λ zone,
       if bool_decide (zone = VInt 7) then Returns (VStr "Front Door")
       else Returns VNone;
     notifications := [1; 2]%nat;
     notifier_send := λ id _,
       if bool_decide (Some id = failing_notifier)
       then Raises (OtherError "SMTP connection refused")
       else Returns tt;
     db_commit := λ _, Returns tt;
     send_packet := λ sock _,
       if bool_decide (Some sock = failing_sock)
       then Raises (OtherError "socket is gone")
       else Returns tt;
     jsonpickle_encode := λ data,
       if bool_decide (data = ∅) then "{}" else "{...}";
     certificates := λ _, [];
     transport_open := λ _ _, opening;
     transport_close := closing;
     join_event_thread := Raises (RuntimeError "cannot join current thread");
     join_version_thread := Returns tt |}.

Definition healthy : Env :=
  scenario (network_settings false) None None (Returns tt) close_once.

(** * Properties *)

(** ** Unfolding the monad *)

Ltac unfold_m :=
  unfold mbind, M_bind, mret, M_ret, raise, gets, self, modify, call,
    try_except, os_execv in *.

Lemma bind_ok {A B} (m : M A) (f : A → M B) w w' a :
  m w = (w', Ok a) → (m ≫= f) w = f a w'.
Proof. intros H. unfold mbind, M_bind. by rewrite H. Qed.

Lemma bind_spec {A B} (m : M A) (f : A → M B) w :
  (m ≫= f) w
  = match m w with
    | (w', Ok a) => f a w'
    | (w', Raise e) => (w', Raise e)
    | (w', Replaced) => (w', Replaced)
    end.
Proof. done. Qed.

(** Updates of one field with its own value, and updates in a row. *)
Lemma set_delivered_same w : set_delivered (delivered w) w = w.
Proof. by destruct w. Qed.

Lemma set_notified_same w : set_notified (notified w) w = w.
Proof. by destruct w. Qed.

(** ** Broadcast fan-out *)

Section Broadcast.

Variable env : Env.

(** The listeners a packet reaches: those before the first one whose
    [send_packet] raises. *)
Fixpoint reached (packet : Packet) (socks : list (nat * nat))
    : list (nat * Packet) :=
  match socks with
  | [] => []
  | (session, sock) :: rest =>
      match send_packet env sock packet with
      | Returns _ => (session, packet) :: reached packet rest
      | Raises _ => []
      end
  end.

(** The exception that ends the loop, if any. *)
Fixpoint send_failure (packet : Packet) (socks : list (nat * nat))
    : option Exn :=
  match socks with
  | [] => None
  | (_, sock) :: rest =>
      match send_packet env sock packet with
      | Returns _ => send_failure packet rest
      | Raises e => Some e
      end
  end.

Definition loop_result (failure : option Exn) : Res unit :=
  match failure with
  | None => Ok tt
  | Some e => Raise e
  end.

Lemma send_loop_spec packet socks w :
  for_each socks (λ '(session, sock), sock_send_packet env session sock packet) w
  = (set_delivered (delivered w ++ reached packet socks) w,
     loop_result (send_failure packet socks)).
Proof.
  revert w. induction socks as [|[session sock] rest IH]; intros w; simpl.
  - by rewrite app_nil_r, set_delivered_same.
  - unfold sock_send_packet. unfold_m.
    destruct (send_packet env sock packet) as [[]|e]; simpl.
    + rewrite IH. simpl. by rewrite <- app_assoc.
    + by rewrite app_nil_r, set_delivered_same.
Qed.

Lemma broadcast_spec channel data w :
  let packet := _make_packet channel (jsonpickle_encode env data) in
  broadcast env channel data w
  = (set_delivered (delivered w ++ reached packet (sockets w)) w,
     loop_result (send_failure packet (sockets w))).
Proof.
  simpl. unfold broadcast, _broadcast_packet. unfold_m.
  apply send_loop_spec.
Qed.

Lemma reached_all packet socks :
  (∀ session sock, (session, sock) ∈ socks →
     send_packet env sock packet = Returns tt) →
  reached packet socks = map (λ l, (l.1, packet)) socks
  ∧ send_failure packet socks = None.
Proof.
  induction socks as [|[session sock] rest IH]; intros Hall; simpl; [done|].
  rewrite (Hall session sock) by apply list_elem_of_here.
  destruct IH as [-> ->]; [|done].
  intros s k Hin. apply (Hall s k). by apply list_elem_of_further.
Qed.

Lemma reached_prefix packet before session sock after e :
  (∀ s k, (s, k) ∈ before → send_packet env k packet = Returns tt) →
  send_packet env sock packet = Raises e →
  reached packet (before ++ (session, sock) :: after)
    = map (λ l, (l.1, packet)) before
  ∧ send_failure packet (before ++ (session, sock) :: after) = Some e.
Proof.
  intros Hbefore Hfail.
  induction before as [|[s k] rest IH]; simpl.
  - by rewrite Hfail.
  - rewrite (Hbefore s k) by apply list_elem_of_here.
    destruct IH as [-> ->]; [|done].
    intros s' k' Hin. apply (Hbefore s' k'). by apply list_elem_of_further.
Qed.

End Broadcast.

(** ** Event classifier and recorder *)

Section Recorder.

Variable env : Env.

(** The targets a dispatch loop calls: all of them up to and including
    the first one that raises. *)
Fixpoint attempted (text : string) (ids : list nat) : list (nat * string) :=
  match ids with
  | [] => []
  | id :: rest =>
      match notifier_send env id text with
      | Returns _ => (id, text) :: attempted text rest
      | Raises _ => [(id, text)]
      end
  end.

Fixpoint notify_failure (text : string) (ids : list nat) : option Exn :=
  match ids with
  | [] => None
  | id :: rest =>
      match notifier_send env id text with
      | Returns _ => notify_failure text rest
      | Raises e => Some e
      end
  end.

Lemma notify_loop_spec text ids w :
  for_each ids (λ id, notify env id text) w
  = (set_notified (notified w ++ attempted text ids) w,
     loop_result (notify_failure text ids)).
Proof.
  revert w. induction ids as [|id rest IH]; intros w; simpl.
  - by rewrite app_nil_r, set_notified_same.
  - unfold notify. unfold_m.
    destruct (notifier_send env id text) as [[]|e]; simpl.
    + rewrite IH. simpl. by rewrite <- app_assoc.
    + done.
Qed.

Lemma attempted_all text ids :
  (∀ id, id ∈ ids → notifier_send env id text = Returns tt) →
  attempted text ids = map (λ id, (id, text)) ids
  ∧ notify_failure text ids = None.
Proof.
  induction ids as [|id rest IH]; intros Hall; simpl; [done|].
  rewrite (Hall id) by apply list_elem_of_here.
  destruct IH as [-> ->]; [|done].
  intros i Hin. apply Hall. by apply list_elem_of_further.
Qed.

Lemma attempted_prefix text before id after e :
  (∀ i, i ∈ before → notifier_send env i text = Returns tt) →
  notifier_send env id text = Raises e →
  attempted text (before ++ id :: after)
    = map (λ i, (i, text)) (before ++ [id])
  ∧ notify_failure text (before ++ id :: after) = Some e.
Proof.
  intros Hbefore Hfail.
  induction before as [|i rest IH]; simpl.
  - by rewrite Hfail.
  - rewrite (Hbefore i) by apply list_elem_of_here.
    destruct IH as [-> ->]; [|done].
    intros i' Hin. apply Hbefore. by apply list_elem_of_further.
Qed.

(** The [if 'zone' in kwargs] block of [_handle_event] as a function of
    the keyword arguments: the arguments the template is formatted with. *)
Definition merge_zone_name (kwargs : gmap string Value)
    : Outcome (gmap string Value) :=
  match kwargs !! "zone" with
  | Some zone =>
      match zone_get_name env zone with
      | Returns zone_name =>
          Returns (<["zone_name" := if truthy zone_name then zone_name
                                    else VStr "<unnamed>"]> kwargs)
      | Raises e => Raises e
      end
  | None => Returns kwargs
  end.

(** The dispatch step: the notification loop for a critical kind,
    nothing for the others. *)
Definition dispatched (ftype : EventType) (msg : string) : list (nat * string) :=
  if bool_decide (ftype ∈ CRITICAL_EVENTS)
  then attempted ("AlarmDecoder Event: " +:+ msg) (notifications env)
  else [].

Definition dispatch_failure (ftype : EventType) (msg : string) : option Exn :=
  if bool_decide (ftype ∈ CRITICAL_EVENTS)
  then notify_failure ("AlarmDecoder Event: " +:+ msg) (notifications env)
  else None.

Definition outcome_res {A} (o : Outcome A) : Res A :=
  match o with
  | Returns a => Ok a
  | Raises e => Raise e
  end.

Lemma call_spec {A} (o : Outcome A) w : call o w = (w, outcome_res o).
Proof. by destruct o. Qed.

Lemma zone_block_spec kwargs w :
  match kwargs !! "zone" with
  | Some zone =>
      zone_name ← call (zone_get_name env zone);
      mret (<["zone_name" := if truthy zone_name then zone_name
                             else VStr "<unnamed>"]> kwargs)
  | None => mret kwargs
  end w
  = (w, outcome_res (merge_zone_name kwargs)).
Proof.
  unfold merge_zone_name.
  destruct (kwargs !! "zone") as [zone|]; [|done].
  unfold_m. by destruct (zone_get_name env zone).
Qed.

Lemma db_session_commit_spec w :
  db_session_commit env w
  = match db_commit env (db_pending w) with
    | Returns _ => (set_db [] (event_log w ++ db_pending w) w, Ok tt)
    | Raises e => (w, Raise e)
    end.
Proof.
  unfold db_session_commit. unfold_m.
  by destruct (db_commit env (db_pending w)).
Qed.

Lemma dispatch_spec ftype msg w :
  (if bool_decide (ftype ∈ CRITICAL_EVENTS) then
     for_each (notifications env)
       (λ id, notify env id ("AlarmDecoder Event: " +:+ msg))
   else mret tt) w
  = (set_notified (notified w ++ dispatched ftype msg) w,
     loop_result (dispatch_failure ftype msg)).
Proof.
  unfold dispatched, dispatch_failure.
  destruct (bool_decide (ftype ∈ CRITICAL_EVENTS)).
  - apply notify_loop_spec.
  - unfold_m. simpl. by rewrite app_nil_r, set_notified_same.
Qed.

(** The error line the callback boundary writes when anything in the
    pipeline raised. *)
Definition swallowed (w : World) : World :=
  set_app_log
    (app_log w ++ [{| log_level := ERROR;
                      log_text := "Error while broadcasting event." |}]) w.

(** The world [_handle_event] leaves, stage by stage. *)
Definition handled (ftype : EventType) (kwargs : gmap string Value)
    (w : World) : World :=
  let w1 := upd_decoder (set_last_message (Some (clock w))) w in
  match merge_zone_name kwargs with
  | Raises _ => swallowed w1
  | Returns kwargs' =>
      match format (EVENT_MESSAGES ftype) kwargs' with
      | Raises _ => swallowed w1
      | Returns msg =>
          let w2 := set_notified (notified w1 ++ dispatched ftype msg) w1 in
          match dispatch_failure ftype msg with
          | Some _ => swallowed w2
          | None =>
              let entry := {| entry_type := ftype; entry_message := msg |} in
              let w3 := set_db (db_pending w2 ++ [entry]) (event_log w2) w2 in
              match db_commit env (db_pending w3) with
              | Raises _ => swallowed w3
              | Returns _ =>
                  let w4 := set_db [] (event_log w3 ++ db_pending w3) w3 in
                  let packet :=
                    _make_packet "event" (jsonpickle_encode env kwargs') in
                  let w5 :=
                    set_delivered
                      (delivered w4 ++ reached env packet (sockets w4)) w4 in
                  match send_failure env packet (sockets w4) with
                  | Some _ => swallowed w5
                  | None => w5
                  end
              end
          end
      end
  end.

Lemma _handle_event_spec ftype kwargs w :
  _handle_event env ftype kwargs w = (handled ftype kwargs w, Ok tt).
Proof.
  unfold _handle_event, handled, try_except.
  rewrite (bind_ok time_time _ w w (clock w) eq_refl).
  rewrite (bind_ok (modify _) _ w _ tt eq_refl).
  set (w1 := upd_decoder (set_last_message (Some (clock w))) w).
  rewrite bind_spec, zone_block_spec.
  destruct (merge_zone_name kwargs) as [kwargs'|e]; simpl; [|done].
  rewrite bind_spec, call_spec.
  destruct (format (EVENT_MESSAGES ftype) kwargs') as [msg|e]; simpl; [|done].
  rewrite bind_spec, dispatch_spec.
  destruct (dispatch_failure ftype msg) as [e|]; simpl; [done|].
  rewrite bind_spec. unfold db_session_add at 1, modify at 1.
  rewrite bind_spec, db_session_commit_spec. simpl.
  match goal with |- context [db_commit env ?p] => destruct (db_commit env p) as [[]|e] end;
    simpl; [|done].
  rewrite broadcast_spec. simpl.
  match goal with |- context [send_failure env ?p ?l] => destruct (send_failure env p l) end;
    done.
Qed.

End Recorder.

Lemma critical_kinds ftype :
  ftype ∈ CRITICAL_EVENTS
  ↔ ftype ∉ [BOOT; CONFIG_RECEIVED; LOW_BATTERY; RELAY_CHANGED].
Proof.
  destruct ftype; by apply (bool_decide_unpack _).
Qed.

(** Templates without a field are their own message. *)
Lemma format_plain ftype kwargs :
  ftype ∉ CRITICAL_EVENTS →
  format (EVENT_MESSAGES ftype) kwargs = Returns (EVENT_MESSAGES ftype).
Proof.
  intros Hnc.
  destruct ftype; try reflexivity;
    exfalso; apply Hnc; unfold CRITICAL_EVENTS; set_solver.
Qed.

Lemma format_zone_fault kwargs name zone :
  kwargs !! "zone_name" = Some (VStr name) →
  kwargs !! "zone" = Some zone →
  format (EVENT_MESSAGES ZONE_FAULT) kwargs
  = Returns (name +:+ " (" +:+ py_str zone +:+ ") has been faulted.").
Proof.
  intros Hname Hzone. unfold format. simpl.
  unfold String.append. simpl. fold String.append.
  rewrite Hname, Hzone. reflexivity.
Qed.

Lemma format_zone_restore kwargs name zone :
  kwargs !! "zone_name" = Some (VStr name) →
  kwargs !! "zone" = Some zone →
  format (EVENT_MESSAGES ZONE_RESTORE) kwargs
  = Returns (name +:+ " (" +:+ py_str zone +:+ ") has been restored.").
Proof.
  intros Hname Hzone. unfold format. simpl.
  unfold String.append. simpl. fold String.append.
  rewrite Hname, Hzone. reflexivity.
Qed.

(** The scenario of the specification: zone 7 is the front door. *)
Example front_door_faulted :
  let w := (_handle_event healthy ZONE_FAULT (<["zone" := VInt 7]> ∅) quiet_world).1 in
  event_log w = [{| entry_type := ZONE_FAULT;
                    entry_message := "Front Door (7) has been faulted." |}].
Proof. vm_compute. reflexivity. Qed.

(** C10.  Whatever the collaborators do (the zone lookup, the template,
    a notifier, the commit or a listener may raise), the handler returns
    normally and [_last_message] holds the time read at its first
    statement: the timestamp is written before any of the fallible
    work, and the [except Exception] at the callback boundary swallows
    the rest. *)
Theorem last_message_stamped_first env ftype kwargs w :
  (_handle_event env ftype kwargs w).2 = Ok tt
  ∧ _last_message (decoder (_handle_event env ftype kwargs w).1) = Some (clock w).
Proof.
  rewrite _handle_event_spec. split; [done|]. simpl.
  unfold handled, swallowed.
  repeat case_match; reflexivity.
Qed.

(** C7.  A kind outside [CRITICAL_EVENTS] (boot, config-received,
    low-battery, relay-changed) makes no notification-dispatch attempt,
    whatever else happens; and when the zone lookup (if the attributes
    carry a zone) and the commit of the log store go through, exactly
    one [EventLogEntry] with the kind and its message is added. *)
Theorem non_critical_event_recorded env ftype kwargs kwargs' w :
  ftype ∉ CRITICAL_EVENTS →
  merge_zone_name env kwargs = Returns kwargs' →
  db_pending w = [] →
  db_commit env [{| entry_type := ftype; entry_message := EVENT_MESSAGES ftype |}]
    = Returns tt →
  let w' := (_handle_event env ftype kwargs w).1 in
  notified w' = notified w
  ∧ event_log w' = event_log w ++ [{| entry_type := ftype;
                                      entry_message := EVENT_MESSAGES ftype |}].
Proof.
  intros Hnc Hzone Hpending Hcommit. simpl.
  rewrite _handle_event_spec. simpl. unfold handled.
  rewrite Hzone, (format_plain _ _ Hnc).
  unfold dispatched, dispatch_failure.
  rewrite (bool_decide_eq_false_2 _ Hnc). simpl.
  rewrite Hpending. simpl. rewrite Hcommit.
  rewrite app_nil_r.
  unfold swallowed. case_match; done.
Qed.

Lemma non_critical_event_recorded_witness :
  let w' := (_handle_event healthy BOOT ∅ quiet_world).1 in
  notified w' = []
  ∧ event_log w' = [{| entry_type := BOOT;
                       entry_message := "The AlarmDecoder has finished booting." |}].
Proof.
  apply (non_critical_event_recorded healthy BOOT ∅ ∅ quiet_world).
  - by apply (bool_decide_unpack _).
  - reflexivity.
  - reflexivity.
  - reflexivity.
Defined.

(** Without any assumption on the collaborators a non-critical kind
    still never reaches a notifier, and at most one entry is added. *)
Lemma non_critical_event_never_dispatched env ftype kwargs w :
  ftype ∉ CRITICAL_EVENTS →
  notified (_handle_event env ftype kwargs w).1 = notified w.
Proof.
  intros Hnc. rewrite _handle_event_spec. simpl. unfold handled.
  unfold dispatched, dispatch_failure, swallowed.
  rewrite (bool_decide_eq_false_2 _ Hnc).
  repeat case_match; simpl; by rewrite ?app_nil_r.
Qed.

Lemma dispatch_all_returned env ftype msg :
  (ftype ∈ CRITICAL_EVENTS →
   ∀ id, id ∈ notifications env →
     notifier_send env id ("AlarmDecoder Event: " +:+ msg) = Returns tt) →
  dispatch_failure env ftype msg = None.
Proof.
  intros Hall. unfold dispatch_failure. case_bool_decide as Hc; [|done].
  by apply attempted_all, Hall.
Qed.

(** The entry reaches the log once the stages before the commit and
    the commit itself went through; a failing broadcast afterwards only
    adds a line to the application log. *)
Lemma recorded_when_dispatched env ftype kwargs kwargs' msg w :
  merge_zone_name env kwargs = Returns kwargs' →
  format (EVENT_MESSAGES ftype) kwargs' = Returns msg →
  dispatch_failure env ftype msg = None →
  db_pending w = [] →
  db_commit env [{| entry_type := ftype; entry_message := msg |}] = Returns tt →
  let w' := (_handle_event env ftype kwargs w).1 in
  event_log w' = event_log w ++ [{| entry_type := ftype; entry_message := msg |}]
  ∧ notified w' = notified w ++ dispatched env ftype msg.
Proof.
  intros Hzone Hformat Hdispatch Hpending Hcommit. simpl.
  rewrite _handle_event_spec. simpl. unfold handled.
  rewrite Hzone, Hformat, Hdispatch. simpl.
  rewrite Hpending. simpl. rewrite Hcommit.
  unfold swallowed. case_match; done.
Qed.

(** C1, as the code has it.  For a kind in [CRITICAL_EVENTS] whose
    message could be formatted, the handler calls the notification
    targets in order.  If every call returns, every target was called
    once with the formatted message and then exactly one
    [EventLogEntry] with the kind and the message is committed.  If a
    call raises, the targets after it are not called and no entry is
    added: the loop has no guard of its own, the exception leaves it and
    is logged at the callback boundary. *)
Theorem critical_event_dispatch_then_record env ftype kwargs kwargs' msg w :
  ftype ∈ CRITICAL_EVENTS →
  merge_zone_name env kwargs = Returns kwargs' →
  format (EVENT_MESSAGES ftype) kwargs' = Returns msg →
  db_pending w = [] →
  db_commit env [{| entry_type := ftype; entry_message := msg |}] = Returns tt →
  let text := "AlarmDecoder Event: " +:+ msg in
  let w' := (_handle_event env ftype kwargs w).1 in
  ((∀ id, id ∈ notifications env → notifier_send env id text = Returns tt) →
   notified w' = notified w ++ map (λ id, (id, text)) (notifications env)
   ∧ event_log w' = event_log w ++ [{| entry_type := ftype; entry_message := msg |}])
  ∧ (∀ before id after e,
       notifications env = before ++ id :: after →
       (∀ i, i ∈ before → notifier_send env i text = Returns tt) →
       notifier_send env id text = Raises e →
       notified w' = notified w ++ map (λ i, (i, text)) (before ++ [id])
       ∧ event_log w' = event_log w
       ∧ app_log w' = app_log w ++ [{| log_level := ERROR;
                                        log_text := "Error while broadcasting event." |}]).
Proof.
  intros Hc Hzone Hformat Hpending Hcommit. simpl. split.
  - intros Hall.
    destruct (recorded_when_dispatched env ftype kwargs kwargs' msg w)
      as [Hlog Hnotified]; try done.
    { by apply dispatch_all_returned. }
    split; [|done]. simpl in Hnotified. rewrite Hnotified.
    unfold dispatched. rewrite (bool_decide_eq_true_2 _ Hc).
    by destruct (attempted_all env _ _ Hall) as [-> _].
  - intros before id after e Hids Hbefore Hfail.
    rewrite _handle_event_spec. simpl. unfold handled.
    rewrite Hzone, Hformat. unfold dispatch_failure, dispatched.
    rewrite (bool_decide_eq_true_2 _ Hc), Hids.
    destruct (attempted_prefix env _ before id after e Hbefore Hfail) as [-> ->].
    done.
Qed.

Lemma critical_event_dispatch_then_record_witness :
  let w' := (_handle_event healthy ALARM ∅ quiet_world).1 in
  notified w' = [(1%nat, "AlarmDecoder Event: Alarm is triggered!");
                 (2%nat, "AlarmDecoder Event: Alarm is triggered!")]
  ∧ event_log w' = [{| entry_type := ALARM; entry_message := "Alarm is triggered!" |}].
Proof.
  apply (critical_event_dispatch_then_record healthy ALARM ∅ ∅
           "Alarm is triggered!" quiet_world).
  - by apply (bool_decide_unpack _).
  - reflexivity.
  - reflexivity.
  - reflexivity.
  - reflexivity.
  - intros id _. reflexivity.
Defined.

(** C1 as the specification words it fails: with two targets of which
    the first raises, the second (which would have accepted the
    message) is never called, and no entry is persisted. *)
Lemma dispatch_failure_skips_the_rest :
  let env := scenario (network_settings false) (Some 1%nat) None (Returns tt) close_once in
  let text := "AlarmDecoder Event: Alarm is triggered!" in
  let w' := (_handle_event env ALARM ∅ quiet_world).1 in
  notifications env = [1; 2]%nat
  ∧ notifier_send env 2%nat text = Returns tt
  ∧ notified w' = [(1%nat, text)]
  ∧ event_log w' = [].
Proof. vm_compute. done. Qed.

(** C6, as the code has it.  When the attributes carry a zone that
    [Zone.get_name] cannot name, the template is formatted with the
    marker [<unnamed>] as the zone name and the handler returns
    normally.  The entry with that message is persisted when the
    stages between formatting and commit go through: for a critical
    kind (zone-fault and zone-restore are critical) that includes every
    notification call returning. *)
Theorem unresolved_zone_is_unnamed env ftype kwargs zone zone_name w :
  kwargs !! "zone" = Some zone →
  zone_get_name env zone = Returns zone_name →
  truthy zone_name = false →
  let kwargs' := <["zone_name" := VStr "<unnamed>"]> kwargs in
  let w' := (_handle_event env ftype kwargs w).1 in
  (_handle_event env ftype kwargs w).2 = Ok tt
  ∧ format (EVENT_MESSAGES ZONE_FAULT) kwargs'
      = Returns ("<unnamed> (" +:+ py_str zone +:+ ") has been faulted.")
  ∧ format (EVENT_MESSAGES ZONE_RESTORE) kwargs'
      = Returns ("<unnamed> (" +:+ py_str zone +:+ ") has been restored.")
  ∧ (∀ msg,
       format (EVENT_MESSAGES ftype) kwargs' = Returns msg →
       (ftype ∈ CRITICAL_EVENTS →
        ∀ id, id ∈ notifications env →
          notifier_send env id ("AlarmDecoder Event: " +:+ msg) = Returns tt) →
       db_pending w = [] →
       db_commit env [{| entry_type := ftype; entry_message := msg |}] = Returns tt →
       event_log w' = event_log w ++ [{| entry_type := ftype; entry_message := msg |}]).
Proof.
  intros Hzone Hname Hfalsy. simpl.
  assert (Hmerge : merge_zone_name env kwargs
                   = Returns (<["zone_name" := VStr "<unnamed>"]> kwargs)).
  { unfold merge_zone_name. by rewrite Hzone, Hname, Hfalsy. }
  split; [by rewrite _handle_event_spec|].
  split; [|split].
  - apply (format_zone_fault _ "<unnamed>" zone).
    + apply lookup_insert_eq.
    + by rewrite lookup_insert_ne.
  - apply (format_zone_restore _ "<unnamed>" zone).
    + apply lookup_insert_eq.
    + by rewrite lookup_insert_ne.
  - intros msg Hformat Hall Hpending Hcommit.
    apply (recorded_when_dispatched env ftype kwargs _ msg w Hmerge Hformat);
      [|done|done].
    by apply dispatch_all_returned.
Qed.

Lemma unresolved_zone_is_unnamed_witness :
  let w' := (_handle_event healthy ZONE_FAULT (<["zone" := VInt 9]> ∅) quiet_world).1 in
  event_log w' = [{| entry_type := ZONE_FAULT;
                     entry_message := "<unnamed> (9) has been faulted." |}].
Proof.
  apply (unresolved_zone_is_unnamed healthy ZONE_FAULT (<["zone" := VInt 9]> ∅)
           (VInt 9) VNone quiet_world).
  - reflexivity.
  - reflexivity.
  - reflexivity.
  - vm_compute. reflexivity.
  - intros _ id _. reflexivity.
  - reflexivity.
  - reflexivity.
Defined.

(** C6 as the specification words it fails: the zone of a zone-fault
    cannot be named, a notifier raises, and nothing is persisted. *)
Lemma unresolved_zone_not_persisted :
  let env := scenario (network_settings false) (Some 1%nat) None (Returns tt) close_once in
  let kwargs : gmap string Value := <["zone" := VInt 9]> ∅ in
  let w' := (_handle_event env ZONE_FAULT kwargs quiet_world).1 in
  zone_get_name env (VInt 9) = Returns VNone
  ∧ notified w' = [(1%nat, "AlarmDecoder Event: <unnamed> (9) has been faulted.")]
  ∧ event_log w' = [].
Proof. vm_compute. done. Qed.

(** ** Broadcast: delivery to the listeners *)

(** C3, as the code has it.  [broadcast] builds the envelope with type
    "event", the channel as name, the encoded payload as args and the
    endpoint "/alarmdecoder", and walks the registered listeners in
    order.  If no [send_packet] raises, every listener gets exactly one
    copy.  If one raises, the listeners before it have their copy, those
    after it get nothing, and the exception reaches the caller of
    [broadcast]: the loop has no guard. *)
Theorem broadcast_delivery env channel data w :
  let packet := {| packet_type := "event"; packet_name := channel;
                   packet_args := jsonpickle_encode env data;
                   packet_endpoint := "/alarmdecoder" |} in
  ((∀ session sock, (session, sock) ∈ sockets w →
      send_packet env sock packet = Returns tt) →
   broadcast env channel data w
   = (set_delivered (delivered w ++ map (λ l, (l.1, packet)) (sockets w)) w,
      Ok tt))
  ∧ (∀ before session sock after e,
       sockets w = before ++ (session, sock) :: after →
       (∀ s k, (s, k) ∈ before → send_packet env k packet = Returns tt) →
       send_packet env sock packet = Raises e →
       broadcast env channel data w
       = (set_delivered (delivered w ++ map (λ l, (l.1, packet)) before) w,
          Raise e)).
Proof.
  simpl. split.
  - intros Hall. rewrite broadcast_spec. cbv zeta. unfold _make_packet.
    by destruct (reached_all env _ _ Hall) as [-> ->].
  - intros before session sock after e Hsocks Hbefore Hfail.
    rewrite broadcast_spec. cbv zeta. unfold _make_packet. rewrite Hsocks.
    by destruct (reached_prefix env _ before session sock after e Hbefore Hfail)
      as [-> ->].
Qed.

Lemma broadcast_delivery_witness :
  delivered (broadcast healthy "device_open" ∅ quiet_world).1
  = [(1%nat, {| packet_type := "event"; packet_name := "device_open";
                packet_args := "{}"; packet_endpoint := "/alarmdecoder" |});
     (2%nat, {| packet_type := "event"; packet_name := "device_open";
                packet_args := "{}"; packet_endpoint := "/alarmdecoder" |})].
Proof.
  rewrite (proj1 (broadcast_delivery healthy "device_open" ∅ quiet_world)).
  - reflexivity.
  - intros session sock _. reflexivity.
Defined.

(** C3 as the specification words it fails: the first listener's
    socket raises, and the second listener, whose socket works, gets
    no copy; the exception is not contained. *)
Lemma broadcast_failure_skips_the_rest :
  let env := scenario (network_settings false) None (Some 101%nat) (Returns tt) close_once in
  let packet := _make_packet "event" "{}" in
  let r := broadcast env "event" ∅ quiet_world in
  sockets quiet_world = [(1, 101); (2, 102)]%nat
  ∧ send_packet env 102%nat packet = Returns tt
  ∧ delivered r.1 = []
  ∧ r.2 = Raise (OtherError "socket is gone").
Proof. vm_compute. done. Qed.

(** ** Connection lifecycle and the monitor *)

(** What a computation leaves alone: the monitor's running flag, the
    two trigger flags and the clock. *)
Definition same_control (w w' : World) : Prop :=
  event_thread_running w' = event_thread_running w
  ∧ trigger_restart (decoder w') = trigger_restart (decoder w)
  ∧ trigger_reopen_device (decoder w') = trigger_reopen_device (decoder w)
  ∧ clock w' = clock w.

(** [steady m]: [m] never touches the control state and never replaces
    the process. *)
Definition steady {A} (m : M A) : Prop :=
  ∀ w, same_control w (m w).1 ∧ (m w).2 ≠ Replaced.

(** [steady_unless_done m]: as [steady], except that [m] may change
    [trigger_reopen_device] when it returns normally. *)
Definition steady_unless_done {A} (m : M A) : Prop :=
  ∀ w, (m w).2 ≠ Replaced
       ∧ event_thread_running (m w).1 = event_thread_running w
       ∧ trigger_restart (decoder (m w).1) = trigger_restart (decoder w)
       ∧ clock (m w).1 = clock w
       ∧ ∀ e, (m w).2 = Raise e →
              trigger_reopen_device (decoder (m w).1)
              = trigger_reopen_device (decoder w).

Lemma same_control_refl w : same_control w w.
Proof. by repeat split. Qed.

Lemma same_control_trans w1 w2 w3 :
  same_control w1 w2 → same_control w2 w3 → same_control w1 w3.
Proof.
  intros (? & ? & ? & ?) (? & ? & ? & ?). repeat split; congruence.
Qed.

Lemma steady_ret {A} (a : A) : steady (mret a).
Proof. intros w. split; [apply same_control_refl|done]. Qed.

Lemma steady_raise {A} e : steady (raise (A := A) e).
Proof. intros w. split; [apply same_control_refl|done]. Qed.

Lemma steady_call {A} (o : Outcome A) : steady (call o).
Proof. destruct o; [apply steady_ret|apply steady_raise]. Qed.

Lemma steady_self {A} (attr : Decoder → A) : steady (self attr).
Proof. intros w. split; [apply same_control_refl|done]. Qed.

Lemma steady_modify f : (∀ w, same_control w (f w)) → steady (modify f).
Proof. intros Hf w. split; [apply Hf|done]. Qed.

Lemma steady_bind {A B} (m : M A) (f : A → M B) :
  steady m → (∀ a, steady (f a)) → steady (m ≫= f).
Proof.
  intros Hm Hf w. rewrite bind_spec.
  destruct (Hm w) as [Hc Hr]. destruct (m w) as [w' [a| e |]]; simpl in *.
  - destruct (Hf a w') as [Hc' Hr']. split; [|done].
    by eapply same_control_trans.
  - done.
  - done.
Qed.

Lemma steady_logger level text : steady (logger level text).
Proof. by apply steady_modify. Qed.

Lemma steady_broadcast env channel data : steady (broadcast env channel data).
Proof.
  intros w. rewrite broadcast_spec. simpl. split; [done|].
  by destruct (send_failure _ _ _).
Qed.

Lemma steady_unless_done_of_steady {A} (m : M A) :
  steady m → steady_unless_done m.
Proof.
  intros Hm w. destruct (Hm w) as [(? & ? & ? & ?) ?]. by repeat split.
Qed.

Lemma steady_unless_done_bind {A B} (m : M A) (f : A → M B) :
  steady m → (∀ a, steady_unless_done (f a)) → steady_unless_done (m ≫= f).
Proof.
  intros Hm Hf w. rewrite bind_spec.
  destruct (Hm w) as [(Hrun & Hrestart & Hreopen & Hclock) Hr].
  destruct (m w) as [w' [a| e |]]; simpl in *.
  - destruct (Hf a w') as (? & ? & ? & ? & Hraise).
    repeat split; try congruence.
    intros e He. rewrite (Hraise e He). done.
  - by repeat split.
  - done.
Qed.

Lemma steady_unless_done_try {A} (body : M A) handler :
  steady_unless_done body → (∀ e, steady (handler e)) →
  steady_unless_done (try_except body handler).
Proof.
  intros Hb Hh w. unfold try_except.
  destruct (Hb w) as (Hr & Hrun & Hrestart & Hclock & Hraise).
  destruct (body w) as [w' [a| e |]]; simpl in *.
  - by repeat split.
  - destruct (Hh e w') as [(? & ? & ? & ?) ?].
    repeat split; try congruence.
    intros e' _. rewrite <- (Hraise e eq_refl). done.
  - done.
Qed.

Lemma steady_unless_done_set_reopen b :
  steady_unless_done (modify (upd_decoder (set_trigger_reopen_device b))).
Proof. intros w. by repeat split. Qed.

Lemma _on_device_open_steady_unless_done env :
  steady_unless_done (_on_device_open env).
Proof.
  unfold _on_device_open.
  apply steady_unless_done_bind; [apply steady_logger|intros _].
  apply steady_unless_done_bind; [apply steady_broadcast|intros _].
  apply steady_unless_done_set_reopen.
Qed.

Lemma device_open_steady_unless_done env baudrate :
  steady_unless_done (device_open env baudrate).
Proof.
  unfold device_open.
  apply steady_unless_done_bind; [apply steady_self|intros [t|]].
  - apply steady_unless_done_bind; [by apply steady_modify|intros _].
    apply steady_unless_done_bind; [apply steady_call|intros _].
    apply steady_unless_done_bind; [by apply steady_modify|intros _].
    apply _on_device_open_steady_unless_done.
  - apply steady_unless_done_of_steady, steady_raise.
Qed.

Lemma certificate_one_steady env name : steady (certificate_one env name).
Proof.
  unfold certificate_one.
  destruct (certificates env name) as [|c [|c' l]];
    [apply steady_raise|apply steady_ret|apply steady_raise].
Qed.

(** [open] never replaces the process, never touches the running flag,
    the restart flag or the clock, and when it raises it has not
    touched [trigger_reopen_device] either: its only write to that flag
    is [_on_device_open]'s last statement. *)
Lemma open_steady_unless_done env : steady_unless_done (open env).
Proof.
  unfold open.
  apply steady_unless_done_bind; [by apply steady_modify|intros _].
  apply steady_unless_done_bind; [by apply steady_modify|intros _].
  apply steady_unless_done_bind; [apply steady_self|intros device_type].
  apply steady_unless_done_bind; [apply steady_self|intros device_location].
  destruct (truthy device_type);
    [|apply steady_unless_done_of_steady, steady_ret].
  apply steady_unless_done_bind.
  { repeat case_bool_decide;
      first [ apply steady_ret
            | apply steady_bind; [by apply steady_modify|intros _; apply steady_ret] ]. }
  intros [[devicetype interface] use_ssl].
  apply steady_unless_done_try.
  - apply steady_unless_done_bind.
    { unfold new_device.
      apply steady_bind; [by apply steady_modify|intros _; apply steady_ret]. }
    intros device.
    apply steady_unless_done_bind.
    { destruct (truthy use_ssl); [|apply steady_ret].
      apply steady_bind; [apply certificate_one_steady|intros ca].
      apply steady_bind; [apply certificate_one_steady|intros internal].
      apply steady_ret. }
    intros device'.
    apply steady_unless_done_bind; [by apply steady_modify|intros _].
    apply steady_unless_done_bind; [by apply steady_modify|intros _].
    apply steady_unless_done_bind; [apply steady_self|intros baudrate].
    apply device_open_steady_unless_done.
  - intros [msg|fn message| | | | | | | |];
      try apply steady_raise;
      (apply steady_bind; [apply steady_logger|intros _; apply steady_raise]).
Qed.

(** C8.  With no device type in the settings store, [open] returns
    normally, constructs no transport and leaves the device handle as it
    was: all it does is refresh the two cached settings. *)
Theorem open_unconfigured_is_noop env w :
  truthy (setting env "device_type" VNone) = false →
  let r := open env w in
  r.2 = Ok tt
  ∧ device (decoder r.1) = device (decoder w)
  ∧ transport_calls r.1 = transport_calls w
  ∧ r.1 = upd_decoder (set_device_location (setting env "device_location" VNone))
            (upd_decoder (set_device_type (setting env "device_type" VNone)) w).
Proof.
  intros Hnone. unfold open. unfold_m. simpl. by rewrite Hnone.
Qed.

Lemma open_unconfigured_is_noop_witness :
  let r := open (scenario ∅ None None (Returns tt) close_once) quiet_world in
  r.2 = Ok tt
  ∧ device (decoder r.1) = None
  ∧ transport_calls r.1 = []
  ∧ r.1 = quiet_world.
Proof.
  exact (open_unconfigured_is_noop (scenario ∅ None None (Returns tt) close_once)
           quiet_world eq_refl).
Defined.

(** TLS is requested when the device is on the network and [use_ssl]
    is set. *)
Definition uses_tls (env : Env) : Prop :=
  setting env "device_location" VNone = VStr "network"
  ∧ truthy (setting env "use_ssl" (VBool false)) = true.

Definition tls_material_ready (env : Env) : Prop :=
  ¬ uses_tls env
  ∨ ∃ ca internal,
      certificates env "AlarmDecoder CA" = [ca]
      ∧ certificates env "AlarmDecoder Internal" = [internal].

(** The ways [open] fails: the transport's own [open] raises (no
    device answered: [NoDeviceError]; the TLS handshake failed:
    [SSL.Error]), or one of the two certificates is not in the store. *)
Inductive open_failure (env : Env) : Exn → Prop :=
  | transport_refused e :
      tls_material_ready env →
      (∀ t baudrate, transport_open env t baudrate = Raises e) →
      open_failure env e
  | ca_certificate_missing :
      uses_tls env →
      certificates env "AlarmDecoder CA" = [] →
      open_failure env NoResultFound
  | internal_certificate_missing ca :
      uses_tls env →
      certificates env "AlarmDecoder CA" = [ca] →
      certificates env "AlarmDecoder Internal" = [] →
      open_failure env NoResultFound.

Lemma open_raises env e w :
  truthy (setting env "device_type" VNone) = true →
  open_failure env e →
  (open env w).2 = Raise e.
Proof.
  intros Hcfg Hfail.
  unfold open, device_open, new_device, bind_events, certificate_one, logger.
  unfold_m. simpl. rewrite Hcfg.
  destruct Hfail as [e Hready Hrefused | [Hnet Hssl] Hca | ca [Hnet Hssl] Hca Hint].
  - case_bool_decide as Hlocal; simpl.
    { rewrite Hrefused. by destruct e. }
    case_bool_decide as Hnetwork; simpl.
    2:{ rewrite Hrefused. by destruct e. }
    destruct (truthy (setting env "use_ssl" (VBool false))) eqn:Hssl; simpl.
    2:{ rewrite Hrefused. by destruct e. }
    destruct Hready as [Hno | (ca & internal & -> & ->)].
    { exfalso. apply Hno. by split. }
    simpl. rewrite Hrefused. by destruct e.
  - rewrite Hnet. simpl. rewrite Hssl, Hca. done.
  - rewrite Hnet. simpl. rewrite Hssl, Hca, Hint. done.
Qed.

Lemma open_raises_keeps_reopen env e w :
  truthy (setting env "device_type" VNone) = true →
  open_failure env e →
  (open env w).2 = Raise e
  ∧ trigger_reopen_device (decoder (open env w).1)
    = trigger_reopen_device (decoder w).
Proof.
  intros Hcfg Hfail.
  pose proof (open_raises env e w Hcfg Hfail) as Hraise.
  split; [done|].
  destruct (open_steady_unless_done env w) as (_ & _ & _ & _ & Hkeep).
  by apply (Hkeep e).
Qed.

(** C4.  When [open] fails because the transport raises
    ([NoDeviceError], [SSL.Error]) or because a certificate is missing
    from the store, the exception reaches the caller and
    [trigger_reopen_device] is what it was before the call. *)
Theorem open_failure_propagates env e w :
  truthy (setting env "device_type" VNone) = true →
  open_failure env e →
  (open env w).2 = Raise e
  ∧ trigger_reopen_device (decoder (open env w).1)
    = trigger_reopen_device (decoder w).
Proof. apply open_raises_keeps_reopen. Qed.

(** The scenario of the specification: a network device with
    [use_ssl] set and an empty certificate store. *)
Lemma open_failure_propagates_witness :
  let env := scenario (network_settings true) None None (Returns tt) close_once in
  (open env quiet_world).2 = Raise NoResultFound
  ∧ trigger_reopen_device (decoder (open env quiet_world).1) = true.
Proof.
  apply (open_failure_propagates
           (scenario (network_settings true) None None (Returns tt) close_once)
           NoResultFound quiet_world).
  - reflexivity.
  - apply ca_certificate_missing.
    + split; reflexivity.
    + reflexivity.
Defined.

Example open_no_device_answers :
  let env := scenario (network_settings false) None None
               (Raises (NoDeviceError "Error opening device at 10.0.0.5:10000"))
               close_once in
  let r := open env quiet_world in
  r.2 = Raise (NoDeviceError "Error opening device at 10.0.0.5:10000")
  ∧ trigger_reopen_device (decoder r.1) = true
  ∧ app_log r.1 = [{| log_level := WARNING;
                      log_text := "Open failed: Error opening device at 10.0.0.5:10000" |}].
Proof. vm_compute. done. Qed.

(** *** The monitor *)

Section Monitor.

Variable env : Env.

(** The reconnection attempt of an iteration. *)
Definition reconnect : M unit :=
  logger INFO "Attempting to reconnect to the AlarmDecoder";;
  try_except (open env)
    (λ err, match err with
            | NoDeviceError msg => logger ERROR ("Device not found: " +:+ msg)
            | _ => raise err
            end).

Lemma reconnect_steady_unless_done : steady_unless_done reconnect.
Proof.
  unfold reconnect.
  apply steady_unless_done_bind; [apply steady_logger|intros _].
  apply steady_unless_done_try; [apply open_steady_unless_done|].
  intros [msg|fn message| | | | | | | |];
    first [apply steady_logger | apply steady_raise].
Qed.

Lemma run_body_unfold w :
  run_body env w
  = ((if trigger_reopen_device (decoder w) then reconnect else mret tt)
     ≫= λ _, restart ← self trigger_restart;
             (if restart : bool then
                logger INFO "Restarting service..";; stop env true
              else mret tt);;
             time_sleep TIMEOUT) w.
Proof. done. Qed.

(** An iteration that does not have to restart the service returns
    normally with the loop's flag untouched, whatever was raised in
    it. *)
Lemma run_iteration_continues w :
  trigger_restart (decoder w) = false →
  (run_iteration env w).2 = Ok tt
  ∧ event_thread_running (run_iteration env w).1 = event_thread_running w
  ∧ trigger_restart (decoder (run_iteration env w).1) = false.
Proof.
  intros Hrestart. unfold run_iteration, try_except.
  rewrite run_body_unfold, bind_spec.
  assert (Hfirst : steady_unless_done
            (if trigger_reopen_device (decoder w) then reconnect else mret tt)).
  { destruct (trigger_reopen_device (decoder w));
      [apply reconnect_steady_unless_done
      |apply steady_unless_done_of_steady, steady_ret]. }
  destruct (Hfirst w) as (Hr & Hrun & Hrst & _).
  destruct ((if trigger_reopen_device (decoder w) then reconnect else mret tt) w)
    as [w1 [[]| e |]]; simpl in *; [|by rewrite Hrst, Hrestart|done].
  unfold_m. simpl. rewrite Hrst, Hrestart. simpl.
  by rewrite Hrst, Hrestart.
Qed.

(** Whatever the iteration meets, no exception leaves it. *)
Lemma run_iteration_catches w e : (run_iteration env w).2 ≠ Raise e.
Proof.
  unfold run_iteration, try_except.
  by destruct (run_body env w) as [w' [[]| e' |]].
Qed.

Lemma run_iteration_logs w w' e :
  run_body env w = (w', Raise e) →
  run_iteration env w
  = (set_app_log
       (app_log w' ++ [{| log_level := ERROR;
                          log_text := "Error in DecoderThread: " +:+ exn_str e |}]) w',
     Ok tt).
Proof. intros Hbody. unfold run_iteration, try_except. by rewrite Hbody. Qed.

Lemma run_iteration_device_not_found_eq w msg :
  trigger_reopen_device (decoder w) = true →
  trigger_restart (decoder w) = false →
  truthy (setting env "device_type" VNone) = true →
  open_failure env (NoDeviceError msg) →
  let w1 := set_app_log
              (app_log w ++ [{| log_level := INFO;
                                log_text := "Attempting to reconnect to the AlarmDecoder" |}])
              w in
  let w2 := (open env w1).1 in
  let w3 := set_app_log
              (app_log w2 ++ [{| log_level := ERROR;
                                 log_text := "Device not found: " +:+ msg |}])
              w2 in
  run_iteration env w = (set_clock (clock w3 + TIMEOUT) w3, Ok tt).
Proof.
  intros Hreopen Hrestart Hcfg Hfail w1 w2 w3.
  unfold run_iteration, try_except.
  rewrite run_body_unfold, bind_spec, Hreopen.
  unfold reconnect. rewrite bind_spec. unfold logger at 1, modify at 1.
  fold w1. unfold try_except.
  pose proof (open_raises_keeps_reopen env _ w1 Hcfg Hfail) as [Hraise Hflag].
  destruct (open_steady_unless_done env w1) as (_ & Hrun & Hrst & Hclock & _).
  subst w3 w2.
  destruct (open env w1) as [w2 r2]. simpl in *. subst r2.
  unfold_m. unfold logger, time_sleep. unfold_m. simpl.
  by rewrite Hrst, Hrestart.
Qed.

Lemma run_iteration_device_not_found w msg :
  trigger_reopen_device (decoder w) = true →
  trigger_restart (decoder w) = false →
  truthy (setting env "device_type" VNone) = true →
  open_failure env (NoDeviceError msg) →
  let r := run_iteration env w in
  r.2 = Ok tt
  ∧ trigger_reopen_device (decoder r.1) = true
  ∧ event_thread_running r.1 = event_thread_running w
  ∧ clock r.1 = clock w + TIMEOUT
  ∧ {| log_level := ERROR; log_text := "Device not found: " +:+ msg |} ∈ app_log r.1.
Proof.
  intros Hreopen Hrestart Hcfg Hfail.
  rewrite (run_iteration_device_not_found_eq w msg Hreopen Hrestart Hcfg Hfail).
  set (w1 := set_app_log _ w).
  pose proof (open_raises_keeps_reopen env _ w1 Hcfg Hfail) as [_ Hflag].
  destruct (open_steady_unless_done env w1) as (_ & Hrun & _ & Hclock & _).
  simpl. rewrite Hflag, Hrun, Hclock. simpl.
  repeat split; try done.
  rewrite elem_of_app. right. apply list_elem_of_here.
Qed.

Lemma run_loop_keeps_looping n w :
  event_thread_running w = true →
  trigger_restart (decoder w) = false →
  (run_loop env n w).2 = Ok StillLooping.
Proof.
  revert w. induction n as [|n IH]; intros w Hrun Hrestart; [done|].
  simpl. unfold_m. simpl. rewrite Hrun.
  destruct (run_iteration_continues w Hrestart) as (Hok & Hrun' & Hrestart').
  destruct (run_iteration env w) as [w' r]. simpl in *. subst r.
  apply IH; congruence.
Qed.

End Monitor.

(** C5.  (1) An iteration with [trigger_reopen_device] set in which
    [open] raises [NoDeviceError] logs "Device not found", leaves the
    flag set, sleeps [TIMEOUT] and returns to the loop test with the
    running flag untouched.  (2) No exception leaves an iteration: what
    the body raises is logged as "Error in DecoderThread".  (3) As long
    as no restart is requested, the loop started by [run] is still
    looping after any number of iterations: it ends only through
    [stop], which the monitor itself calls only for a restart. *)
Theorem monitor_survives env :
  (∀ w msg,
     trigger_reopen_device (decoder w) = true →
     trigger_restart (decoder w) = false →
     truthy (setting env "device_type" VNone) = true →
     open_failure env (NoDeviceError msg) →
     let r := run_iteration env w in
     r.2 = Ok tt
     ∧ trigger_reopen_device (decoder r.1) = true
     ∧ event_thread_running r.1 = event_thread_running w
     ∧ clock r.1 = clock w + TIMEOUT
     ∧ {| log_level := ERROR; log_text := "Device not found: " +:+ msg |}
         ∈ app_log r.1)
  ∧ (∀ w e, (run_iteration env w).2 ≠ Raise e)
  ∧ (∀ w w' e,
       run_body env w = (w', Raise e) →
       run_iteration env w
       = (set_app_log
            (app_log w' ++ [{| log_level := ERROR;
                               log_text := "Error in DecoderThread: " +:+ exn_str e |}])
            w',
          Ok tt))
  ∧ (∀ n w,
       trigger_restart (decoder w) = false →
       (run env n w).2 = Ok StillLooping).
Proof.
  split; [|split; [|split]].
  - apply run_iteration_device_not_found.
  - apply run_iteration_catches.
  - apply run_iteration_logs.
  - intros n w Hrestart. unfold run. rewrite bind_spec. simpl.
    by apply run_loop_keeps_looping.
Qed.

Lemma monitor_survives_witness :
  let env := scenario (network_settings false) None None
               (Raises (NoDeviceError "Error opening device at 10.0.0.5:10000"))
               close_once in
  let r := run_iteration env quiet_world in
  r.2 = Ok tt
  ∧ trigger_reopen_device (decoder r.1) = true
  ∧ event_thread_running r.1 = true
  ∧ clock r.1 = 1005
  ∧ {| log_level := ERROR;
       log_text := "Device not found: Error opening device at 10.0.0.5:10000" |}
      ∈ app_log r.1.
Proof.
  apply (proj1 (monitor_survives
           (scenario (network_settings false) None None
              (Raises (NoDeviceError "Error opening device at 10.0.0.5:10000"))
              close_once))
           quiet_world "Error opening device at 10.0.0.5:10000").
  - reflexivity.
  - reflexivity.
  - reflexivity.
  - apply transport_refused.
    + left. intros [_ Hssl]. discriminate Hssl.
    + intros t baudrate. reflexivity.
Defined.

(** With a restart requested the iteration goes through [stop]: the
    running flags are cleared, the listener server is stopped, and the
    process image is replaced. *)
Example restart_goes_through_stop :
  let w := upd_decoder
             (λ d, {| device := device d; trigger_reopen_device := false;
                      trigger_restart := true; _last_message := _last_message d;
                      _device_baudrate := _device_baudrate d;
                      _device_type := _device_type d;
                      _device_location := _device_location d |})
             quiet_world in
  let r := run_iteration healthy w in
  r.2 = Replaced
  ∧ event_thread_running r.1 = false
  ∧ websocket_running r.1 = false.
Proof. vm_compute. done. Qed.

(** *** [close] *)

Section Close.

Variable env : Env.

Lemma _on_device_close_spec w :
  let w1 := set_app_log
              (app_log w ++ [{| log_level := INFO;
                                log_text := "AlarmDecoder device was closed." |}]) w in
  let packet := _make_packet "device_close" (jsonpickle_encode env ∅) in
  let w2 := set_delivered (delivered w1 ++ reached env packet (sockets w1)) w1 in
  _on_device_close env w
  = match send_failure env packet (sockets w1) with
    | None => (upd_decoder (set_trigger_reopen_device true) w2, Ok tt)
    | Some e => (w2, Raise e)
    end.
Proof.
  simpl. unfold _on_device_close.
  rewrite bind_spec. unfold logger at 1, modify at 1.
  rewrite bind_spec, broadcast_spec. simpl.
  by destruct (send_failure _ _ _).
Qed.

Lemma _on_device_close_device w :
  device (decoder (_on_device_close env w).1) = device (decoder w).
Proof.
  rewrite _on_device_close_spec. simpl. by destruct (send_failure _ _ _).
Qed.

Lemma close_device w t :
  device (decoder w) = Some t →
  device (decoder (close env w).1) = Some (with_conn Closed t).
Proof.
  intros Hdev. unfold close. rewrite bind_spec. unfold self at 1.
  rewrite Hdev. unfold_m. simpl.
  destruct (notifies_close (transport_close env t)).
  - match goal with |- context [_on_device_close env ?w0] =>
      pose proof (_on_device_close_device w0) as Hkeep;
      destruct (_on_device_close env w0) as [w1 [[]| e |]]
    end; simpl in *; try done.
    by destruct (close_result (transport_close env t)).
  - by destruct (close_result (transport_close env t)).
Qed.

Lemma close_calls_transport w t :
  device (decoder w) = Some t →
  transport_calls (close env w).1 = transport_calls w ++ [TClose].
Proof.
  intros Hdev. unfold close. rewrite bind_spec. unfold self at 1.
  rewrite Hdev. unfold_m. simpl.
  destruct (notifies_close (transport_close env t)).
  - match goal with |- context [_on_device_close env ?w0] =>
      pose proof (_on_device_close_spec w0) as Hspec;
      destruct (_on_device_close env w0) as [w1 r]
    end.
    simpl in Hspec. destruct (send_failure _ _ _); simplify_eq; simpl.
    + done.
    + by destruct (close_result (transport_close env t)).
  - by destruct (close_result (transport_close env t)).
Qed.

Lemma set_closed_again w t :
  device (decoder w) = Some t → conn t = Closed →
  upd_decoder (set_device (Some (with_conn Closed t))) w = w.
Proof.
  destruct w as [d ? ? ? ? ? ? ? ? ? ? ?]. destruct d as [dev ? ? ? ? ? ?].
  simpl. intros -> Hconn. destruct t. simpl in *. by subst.
Qed.

Lemma close_closed w t :
  (∀ t, conn t = Closed →
        transport_close env t
        = {| notifies_close := false; close_result := Returns tt |}) →
  device (decoder w) = Some t → conn t = Closed →
  close env w = (set_transport_calls (transport_calls w ++ [TClose]) w, Ok tt).
Proof.
  intros Hquiet Hdev Hconn. unfold close. rewrite bind_spec. unfold self at 1.
  rewrite Hdev. unfold_m. simpl. rewrite (Hquiet t Hconn). simpl.
  by rewrite (set_closed_again (set_transport_calls _ w) t).
Qed.

End Close.

(** C9, as the code has it.  Without a device handle [close] does
    nothing.  With one, every call goes to the transport's [close]: the
    handle is kept after closing and nothing in the [Decoder] records
    that it was closed.  So a call after the first is no no-op for the
    transport; it leaves everything else as it was exactly when the
    transport's [close] does nothing on a connection that is closed. *)
Theorem close_delegates_every_time env :
  (∀ w, device (decoder w) = None → close env w = (w, Ok tt))
  ∧ (∀ w t, device (decoder w) = Some t →
       transport_calls (close env w).1 = transport_calls w ++ [TClose])
  ∧ ((∀ t, conn t = Closed →
           transport_close env t
           = {| notifies_close := false; close_result := Returns tt |}) →
     ∀ w t, device (decoder w) = Some t →
       let w1 := (close env w).1 in
       close env w1
       = (set_transport_calls (transport_calls w1 ++ [TClose]) w1, Ok tt)).
Proof.
  split; [|split].
  - intros w Hnone. unfold close. rewrite bind_spec. unfold self. by rewrite Hnone.
  - apply close_calls_transport.
  - intros Hquiet w t Hdev. simpl.
    apply (close_closed env _ (with_conn Closed t) Hquiet); [|done].
    by apply close_device.
Qed.

(** A world whose device was opened over the network. *)
Definition connected_world : World :=
  upd_decoder
    (set_device
       (Some {| devicetype := SocketDevice;
                interface := IAddr (VStr "10.0.0.5") (VInt 10000);
                ssl := false; ssl_ca := None; ssl_certificate := None;
                ssl_key := None; events_bound := true; conn := Opened |}))
    quiet_world.

Lemma close_delegates_every_time_witness :
  let w1 := (close healthy connected_world).1 in
  close healthy w1
  = (set_transport_calls (transport_calls w1 ++ [TClose]) w1, Ok tt).
Proof.
  refine (proj2 (proj2 (close_delegates_every_time healthy)) _ connected_world _ eq_refl).
  intros [c i s ca cert key b st] Hst. simpl in Hst. subst st. reflexivity.
Defined.

(** C9 as the specification words it fails: the device was closed, and
    a second [close] is neither a no-op nor without effect.  The
    transport is called again, and with a transport that reports
    [on_close] on every call the listeners get a second "device_close". *)
Lemma close_twice_is_not_close_once :
  let env := scenario (network_settings false) None None (Returns tt) close_always in
  let once := (close env connected_world).1 in
  let twice := (close env once).1 in
  (conn <$> device (decoder once)) = Some Closed
  ∧ transport_calls once = [TClose]
  ∧ transport_calls twice = [TClose; TClose]
  ∧ length (delivered once) = 2%nat
  ∧ length (delivered twice) = 4%nat.
Proof. vm_compute. done. Qed.

(** ** The device tests: one outcome per step? *)

Import Diagnostics.




Lemma run_schedule_cons name cb t schedule st :
  run_schedule name cb (t :: schedule) st
  = run_schedule name cb schedule (tick name cb t st).
Proof. done. Qed.



Section OneOutcome.

Variables (name : TestName) (others : list nat) (cb : nat).
Hypothesis cb_fresh : cb ∉ others.



Lemma not_registered : bool_decide (cb ∈ others) = false.
Proof. by apply bool_decide_eq_false_2. Qed.









End OneOutcome.




(** Started without a device, a test cancels its timer and leaves
    through the [except] block's own failure: no outcome is broadcast
    at all. *)
Example no_device_no_report :
  let r := start Send false (Returns tt) (Returns tt) 7%nat (fresh []) in
  reports r.1 = []
  ∧ timer r.1 = Cancelled
  ∧ r.2 = Raise (AttributeError "'NoneType' object has no attribute").
Proof. vm_compute. done. Qed.

(** * Further properties of the module *)

(** ** The recorder: templates, dropped events, the log *)

(** The fields each template of [EVENT_MESSAGES] names. *)
Definition template_fields (ftype : EventType) : list string :=
  match ftype with
  | POWER_CHANGED => ["status"]
  | ZONE_FAULT | ZONE_RESTORE => ["zone_name"; "zone"]
  | _ => []
  end.

(** The first of [keys] that [kwargs] does not hold. *)
Fixpoint first_missing (keys : list string) (kwargs : gmap string Value)
    : option string :=
  match keys with
  | [] => None
  | k :: rest =>
      match kwargs !! k with
      | Some _ => first_missing rest kwargs
      | None => Some k
      end
  end.

Lemma first_missing_none keys (kwargs : gmap string Value) :
  first_missing keys kwargs = None ↔ ∀ k, k ∈ keys → is_Some (kwargs !! k).
Proof.
  induction keys as [|k rest IH]; simpl.
  - split; [|done]. intros _ k Hk. by apply elem_of_nil in Hk.
  - destruct (kwargs !! k) as [v|] eqn:Hk.
    + rewrite IH. split.
      * intros Hrest k' Hin. apply elem_of_cons in Hin as [->|Hin]; [by eexists|auto].
      * intros Hall k' Hin. apply Hall. by apply list_elem_of_further.
    + split; [done|]. intros Hall.
      destruct (Hall k (list_elem_of_here _ _)) as [v Hv]. congruence.
Qed.

(** [format] on a kind's template, by the first field that is missing. *)
Lemma format_by_fields ftype (kwargs : gmap string Value) :
  match first_missing (template_fields ftype) kwargs with
  | Some k => format (EVENT_MESSAGES ftype) kwargs = Raises (KeyError k)
  | None => ∃ msg, format (EVENT_MESSAGES ftype) kwargs = Returns msg
  end.
Proof.
  destruct ftype; simpl; try (by eexists);
    unfold format; simpl; unfold String.append; simpl; fold String.append.
  - destruct (kwargs !! "status"); [by eexists|done].
  - destruct (kwargs !! "zone_name"); [|done].
    destruct (kwargs !! "zone"); [by eexists|done].
  - destruct (kwargs !! "zone_name"); [|done].
    destruct (kwargs !! "zone"); [by eexists|done].
Qed.


(** X2.  A callback whose attributes lack a field of the template is
    dropped at the callback boundary: the timestamp is set and one
    error line is logged, but no notifier is called, nothing is added
    to the event log and nothing is broadcast.  A zone-fault without a
    zone is such a callback (no zone name is merged, so [zone_name] is
    the missing field). *)
Theorem event_with_missing_field_is_dropped env ftype kwargs kwargs' k w :
  merge_zone_name env kwargs = Returns kwargs' →
  first_missing (template_fields ftype) kwargs' = Some k →
  _handle_event env ftype kwargs w
  = (swallowed (upd_decoder (set_last_message (Some (clock w))) w), Ok tt).
Proof.
  intros Hzone Hmissing. rewrite _handle_event_spec. f_equal.
  unfold handled. rewrite Hzone.
  pose proof (format_by_fields ftype kwargs') as Hformat.
  rewrite Hmissing in Hformat. by rewrite Hformat.
Qed.

Lemma event_with_missing_field_is_dropped_witness :
  let w' := (_handle_event healthy ZONE_FAULT ∅ quiet_world).1 in
  notified w' = [] ∧ event_log w' = [] ∧ delivered w' = []
  ∧ app_log w' = [{| log_level := ERROR;
                     log_text := "Error while broadcasting event." |}].
Proof.
  rewrite (event_with_missing_field_is_dropped healthy ZONE_FAULT ∅ ∅ "zone_name"
             quiet_world); [repeat split|reflexivity|reflexivity].
Defined.

(** X3.  Whatever the collaborators do, a callback only appends to the
    event log, and, when the session held nothing uncommitted, at most
    the one entry of the callback's own kind. *)
Theorem event_log_is_append_only env ftype kwargs w :
  db_pending w = [] →
  ∃ added,
    event_log (_handle_event env ftype kwargs w).1 = event_log w ++ added
    ∧ (length added ≤ 1)%nat
    ∧ ∀ entry, entry ∈ added → entry_type entry = ftype.
Proof.
  intros Hpending. rewrite _handle_event_spec.
  unfold handled, swallowed. simpl. rewrite Hpending. simpl.
  assert (Hnone : ∃ added : list EventLogEntry,
            event_log w = event_log w ++ added ∧ (length added ≤ 1)%nat
            ∧ ∀ entry, entry ∈ added → entry_type entry = ftype).
  { exists []. rewrite app_nil_r. split; [done|]. split; [simpl; lia|].
    intros entry Hin. by apply elem_of_nil in Hin. }
  repeat case_match; simpl; try done;
    (eexists [_]; split; [done|]; split; [simpl; lia|];
     intros entry Hin; apply list_elem_of_singleton in Hin; by subst).
Qed.

Lemma event_log_is_append_only_witness :
  ∃ added,
    event_log (_handle_event healthy PANIC ∅ quiet_world).1 = [] ++ added
    ∧ (length added ≤ 1)%nat
    ∧ ∀ entry, entry ∈ added → entry_type entry = PANIC.
Proof.
  exact (event_log_is_append_only healthy PANIC ∅ quiet_world eq_refl).
Defined.

(** X4.  When every stage goes through, each listener receives one
    "event" envelope whose payload is the attributes after the zone
    name was merged in (not the attributes the device passed), and no
    error is logged. *)
Theorem event_broadcast_carries_merged_attributes env ftype kwargs kwargs' msg w :
  merge_zone_name env kwargs = Returns kwargs' →
  format (EVENT_MESSAGES ftype) kwargs' = Returns msg →
  (ftype ∈ CRITICAL_EVENTS →
   ∀ id, id ∈ notifications env →
     notifier_send env id ("AlarmDecoder Event: " +:+ msg) = Returns tt) →
  db_commit env (db_pending w ++ [{| entry_type := ftype; entry_message := msg |}])
    = Returns tt →
  let packet := {| packet_type := "event"; packet_name := "event";
                   packet_args := jsonpickle_encode env kwargs';
                   packet_endpoint := "/alarmdecoder" |} in
  (∀ session sock, (session, sock) ∈ sockets w →
     send_packet env sock packet = Returns tt) →
  let w' := (_handle_event env ftype kwargs w).1 in
  delivered w' = delivered w ++ map (λ l, (l.1, packet)) (sockets w)
  ∧ app_log w' = app_log w.
Proof.
  intros Hzone Hformat Hnotify Hcommit packet Hall. simpl.
  pose proof (dispatch_all_returned env ftype msg Hnotify) as Hdispatch.
  rewrite _handle_event_spec. simpl. unfold handled.
  rewrite Hzone, Hformat, Hdispatch. simpl. rewrite Hcommit.
  unfold _make_packet. fold packet.
  destruct (reached_all env packet (sockets w) Hall) as [Hreached Hnone].
  simpl. by rewrite Hnone, Hreached.
Qed.

Lemma event_broadcast_carries_merged_attributes_witness :
  let kwargs : gmap string Value := <["zone" := VInt 7]> ∅ in
  let w' := (_handle_event healthy ZONE_RESTORE kwargs quiet_world).1 in
  let packet := {| packet_type := "event"; packet_name := "event";
                   packet_args := jsonpickle_encode healthy
                                    (<["zone_name" := VStr "Front Door"]> kwargs);
                   packet_endpoint := "/alarmdecoder" |} in
  delivered w' = [(1%nat, packet); (2%nat, packet)] ∧ app_log w' = [].
Proof.
  apply (event_broadcast_carries_merged_attributes healthy ZONE_RESTORE
           (<["zone" := VInt 7]> ∅)
           (<["zone_name" := VStr "Front Door"]> (<["zone" := VInt 7]> ∅))
           "Front Door (7) has been restored." quiet_world).
  - reflexivity.
  - vm_compute. reflexivity.
  - intros _ id _. reflexivity.
  - reflexivity.
  - intros session sock _. reflexivity.
Defined.

(** X5.  The entry is committed before the broadcast: when a listener's
    socket raises during the "event" broadcast, the entry stays in the
    event log, the listeners before the failing one have their
    envelope, and the failure is logged and goes no further. *)
Theorem recorded_event_survives_broadcast_failure
    env ftype kwargs kwargs' msg w before session sock after e :
  merge_zone_name env kwargs = Returns kwargs' →
  format (EVENT_MESSAGES ftype) kwargs' = Returns msg →
  (ftype ∈ CRITICAL_EVENTS →
   ∀ id, id ∈ notifications env →
     notifier_send env id ("AlarmDecoder Event: " +:+ msg) = Returns tt) →
  db_pending w = [] →
  db_commit env [{| entry_type := ftype; entry_message := msg |}] = Returns tt →
  let packet := {| packet_type := "event"; packet_name := "event";
                   packet_args := jsonpickle_encode env kwargs';
                   packet_endpoint := "/alarmdecoder" |} in
  sockets w = before ++ (session, sock) :: after →
  (∀ s k, (s, k) ∈ before → send_packet env k packet = Returns tt) →
  send_packet env sock packet = Raises e →
  let r := _handle_event env ftype kwargs w in
  r.2 = Ok tt
  ∧ event_log r.1 = event_log w ++ [{| entry_type := ftype; entry_message := msg |}]
  ∧ delivered r.1 = delivered w ++ map (λ l, (l.1, packet)) before
  ∧ app_log r.1 = app_log w ++ [{| log_level := ERROR;
                                   log_text := "Error while broadcasting event." |}].
Proof.
  intros Hzone Hformat Hnotify Hpending Hcommit packet Hsocks Hbefore Hfail.
  pose proof (dispatch_all_returned env ftype msg Hnotify) as Hdispatch.
  simpl. rewrite _handle_event_spec. simpl. unfold handled.
  rewrite Hzone, Hformat, Hdispatch. simpl. rewrite Hpending. simpl.
  rewrite Hcommit. unfold _make_packet. fold packet. rewrite Hsocks.
  destruct (reached_prefix env packet before session sock after e Hbefore Hfail)
    as [Hreached Hsome].
  simpl. by rewrite Hsome, Hreached.
Qed.

Lemma recorded_event_survives_broadcast_failure_witness :
  let env := scenario (network_settings false) None (Some 102%nat) (Returns tt) close_once in
  let r := _handle_event env BOOT ∅ quiet_world in
  let packet := {| packet_type := "event"; packet_name := "event";
                   packet_args := jsonpickle_encode env ∅;
                   packet_endpoint := "/alarmdecoder" |} in
  r.2 = Ok tt
  ∧ event_log r.1 = [{| entry_type := BOOT;
                        entry_message := "The AlarmDecoder has finished booting." |}]
  ∧ delivered r.1 = [(1%nat, packet)]
  ∧ app_log r.1 = [{| log_level := ERROR;
                      log_text := "Error while broadcasting event." |}].
Proof.
  apply (recorded_event_survives_broadcast_failure
           (scenario (network_settings false) None (Some 102%nat) (Returns tt) close_once)
           BOOT ∅ ∅ "The AlarmDecoder has finished booting." quiet_world
           [(1, 101)]%nat 2%nat 102%nat [] (OtherError "socket is gone")).
  - reflexivity.
  - reflexivity.
  - intros _ id _. reflexivity.
  - reflexivity.
  - reflexivity.
  - reflexivity.
  - intros s k Hin. apply list_elem_of_singleton in Hin. by simplify_eq.
  - reflexivity.
Defined.

(** ** Raw messages and the lifecycle notifications *)

Section Notifications.

Variable env : Env.

Definition info_line (text : string) (w : World) : World :=
  set_app_log (app_log w ++ [{| log_level := INFO; log_text := text |}]) w.

Lemma _on_device_open_spec w :
  let w1 := info_line "AlarmDecoder device was opened." w in
  let packet := _make_packet "device_open" (jsonpickle_encode env ∅) in
  let w2 := set_delivered (delivered w1 ++ reached env packet (sockets w1)) w1 in
  _on_device_open env w
  = match send_failure env packet (sockets w1) with
    | None => (upd_decoder (set_trigger_reopen_device false) w2, Ok tt)
    | Some e => (w2, Raise e)
    end.
Proof.
  simpl. unfold _on_device_open.
  rewrite bind_spec. unfold logger at 1, modify at 1.
  rewrite bind_spec, broadcast_spec. simpl.
  by destruct (send_failure _ _ _).
Qed.

Lemma _on_message_spec ftype kwargs w :
  let payload : gmap string Value :=
    <["message" := default VNone (kwargs !! "message")]>
      (<["message_type" := VStr ftype]> ∅) in
  let packet := _make_packet "message" (jsonpickle_encode env payload) in
  let w1 := set_delivered (delivered w ++ reached env packet (sockets w)) w in
  _on_message env ftype kwargs w
  = (match send_failure env packet (sockets w) with
     | None => w1
     | Some _ =>
         set_app_log
           (app_log w1 ++ [{| log_level := ERROR;
                              log_text := "Error while broadcasting message." |}]) w1
     end, Ok tt).
Proof.
  simpl. unfold _on_message, try_except. rewrite broadcast_spec. simpl.
  by destruct (send_failure _ _ _).
Qed.

End Notifications.

(** X6.  [_on_message] never raises into the device's callback
    machinery.  It sends one "message" envelope, whose payload holds the
    message (or [None] when the callback passed none) and the origin
    tag, to the listeners in order; when a listener's socket raises,
    the listeners after it get nothing and one error line is logged. *)
Theorem raw_message_is_broadcast_and_contained env ftype kwargs w :
  let payload : gmap string Value :=
    <["message" := default VNone (kwargs !! "message")]>
      (<["message_type" := VStr ftype]> ∅) in
  let packet := {| packet_type := "event"; packet_name := "message";
                   packet_args := jsonpickle_encode env payload;
                   packet_endpoint := "/alarmdecoder" |} in
  let r := _on_message env ftype kwargs w in
  r.2 = Ok tt
  ∧ ((∀ session sock, (session, sock) ∈ sockets w →
        send_packet env sock packet = Returns tt) →
     r.1 = set_delivered (delivered w ++ map (λ l, (l.1, packet)) (sockets w)) w)
  ∧ (∀ before session sock after e,
       sockets w = before ++ (session, sock) :: after →
       (∀ s k, (s, k) ∈ before → send_packet env k packet = Returns tt) →
       send_packet env sock packet = Raises e →
       delivered r.1 = delivered w ++ map (λ l, (l.1, packet)) before
       ∧ app_log r.1 = app_log w ++ [{| log_level := ERROR;
                                        log_text := "Error while broadcasting message." |}]).
Proof.
  intros payload packet. simpl. rewrite _on_message_spec.
  cbv zeta. unfold _make_packet. fold payload. fold packet. simpl.
  split; [done|]. split.
  - intros Hall. by destruct (reached_all env packet _ Hall) as [-> ->].
  - intros before session sock after e Hsocks Hbefore Hfail. rewrite Hsocks.
    by destruct (reached_prefix env packet before session sock after e Hbefore Hfail)
      as [-> ->].
Qed.

Lemma raw_message_is_broadcast_and_contained_witness :
  let env := scenario (network_settings false) None (Some 101%nat) (Returns tt) close_once in
  let r := _on_message env "panel" ∅ quiet_world in
  delivered r.1 = []
  ∧ app_log r.1 = [{| log_level := ERROR;
                      log_text := "Error while broadcasting message." |}].
Proof.
  apply (proj2 (proj2 (raw_message_is_broadcast_and_contained
           (scenario (network_settings false) None (Some 101%nat) (Returns tt) close_once)
           "panel" ∅ quiet_world))
           [] 1%nat 101%nat [(2, 102)]%nat (OtherError "socket is gone")).
  - reflexivity.
  - intros s k Hin. by apply elem_of_nil in Hin.
  - reflexivity.
Defined.

(** The two outcomes of [_on_device_open], by the broadcast's. *)
Lemma _on_device_open_outcome env w :
  let packet := {| packet_type := "event"; packet_name := "device_open";
                   packet_args := jsonpickle_encode env ∅;
                   packet_endpoint := "/alarmdecoder" |} in
  let r := _on_device_open env w in
  ((∀ session sock, (session, sock) ∈ sockets w →
      send_packet env sock packet = Returns tt) →
   r.2 = Ok tt
   ∧ trigger_reopen_device (decoder r.1) = false
   ∧ delivered r.1 = delivered w ++ map (λ l, (l.1, packet)) (sockets w))
  ∧ (∀ before session sock after e,
       sockets w = before ++ (session, sock) :: after →
       (∀ s k, (s, k) ∈ before → send_packet env k packet = Returns tt) →
       send_packet env sock packet = Raises e →
       r.2 = Raise e
       ∧ trigger_reopen_device (decoder r.1) = trigger_reopen_device (decoder w)).
Proof.
  intros packet. simpl. rewrite _on_device_open_spec.
  cbv zeta. unfold _make_packet. fold packet. simpl. split.
  - intros Hall. by destruct (reached_all env packet _ Hall) as [-> ->].
  - intros before session sock after e Hsocks Hbefore Hfail. rewrite Hsocks.
    by destruct (reached_prefix env packet before session sock after e Hbefore Hfail)
      as [-> ->].
Qed.

(** X7.  [_on_device_open] clears [trigger_reopen_device] only after
    its broadcast: when every listener takes the "device_open"
    envelope the flag is cleared, and when a listener's socket raises
    the exception goes back to the transport and the flag keeps its
    value (a set flag stays set, so the monitor will open again). *)
Theorem device_open_clears_flag_after_broadcast env w :
  let packet := {| packet_type := "event"; packet_name := "device_open";
                   packet_args := jsonpickle_encode env ∅;
                   packet_endpoint := "/alarmdecoder" |} in
  let r := _on_device_open env w in
  ((∀ session sock, (session, sock) ∈ sockets w →
      send_packet env sock packet = Returns tt) →
   r.2 = Ok tt
   ∧ trigger_reopen_device (decoder r.1) = false
   ∧ delivered r.1 = delivered w ++ map (λ l, (l.1, packet)) (sockets w))
  ∧ (∀ before session sock after e,
       sockets w = before ++ (session, sock) :: after →
       (∀ s k, (s, k) ∈ before → send_packet env k packet = Returns tt) →
       send_packet env sock packet = Raises e →
       r.2 = Raise e
       ∧ trigger_reopen_device (decoder r.1) = trigger_reopen_device (decoder w)).
Proof. apply _on_device_open_outcome. Qed.

Lemma device_open_clears_flag_after_broadcast_witness :
  let r := _on_device_open healthy quiet_world in
  r.2 = Ok tt
  ∧ trigger_reopen_device (decoder r.1) = false
  ∧ delivered r.1
    = [] ++ map (λ l, (l.1, {| packet_type := "event"; packet_name := "device_open";
                               packet_args := jsonpickle_encode healthy ∅;
                               packet_endpoint := "/alarmdecoder" |}))
              (sockets quiet_world).
Proof.
  apply (proj1 (device_open_clears_flag_after_broadcast healthy quiet_world)).
  intros session sock _. reflexivity.
Defined.

(** X8.  [_on_device_close] sets [trigger_reopen_device] only after its
    broadcast: when a listener's socket raises during the
    "device_close" broadcast the flag is not set, so a connection that
    was lost while the flag was clear is not scheduled for reopening. *)
Theorem device_close_sets_flag_after_broadcast env w :
  let packet := {| packet_type := "event"; packet_name := "device_close";
                   packet_args := jsonpickle_encode env ∅;
                   packet_endpoint := "/alarmdecoder" |} in
  let r := _on_device_close env w in
  ((∀ session sock, (session, sock) ∈ sockets w →
      send_packet env sock packet = Returns tt) →
   r.2 = Ok tt
   ∧ trigger_reopen_device (decoder r.1) = true
   ∧ delivered r.1 = delivered w ++ map (λ l, (l.1, packet)) (sockets w))
  ∧ (∀ before session sock after e,
       sockets w = before ++ (session, sock) :: after →
       (∀ s k, (s, k) ∈ before → send_packet env k packet = Returns tt) →
       send_packet env sock packet = Raises e →
       r.2 = Raise e
       ∧ trigger_reopen_device (decoder r.1) = trigger_reopen_device (decoder w)).
Proof.
  intros packet. simpl. rewrite _on_device_close_spec.
  cbv zeta. unfold _make_packet. fold packet. simpl. split.
  - intros Hall. by destruct (reached_all env packet _ Hall) as [-> ->].
  - intros before session sock after e Hsocks Hbefore Hfail. rewrite Hsocks.
    by destruct (reached_prefix env packet before session sock after e Hbefore Hfail)
      as [-> ->].
Qed.

Lemma device_close_sets_flag_after_broadcast_witness :
  let env := scenario (network_settings false) None (Some 102%nat) (Returns tt) close_once in
  let w := upd_decoder (set_trigger_reopen_device false) connected_world in
  let r := _on_device_close env w in
  r.2 = Raise (OtherError "socket is gone")
  ∧ trigger_reopen_device (decoder r.1) = false.
Proof.
  apply (proj2 (device_close_sets_flag_after_broadcast
           (scenario (network_settings false) None (Some 102%nat) (Returns tt) close_once)
           (upd_decoder (set_trigger_reopen_device false) connected_world))
           [(1, 101)]%nat 2%nat 102%nat [] (OtherError "socket is gone")).
  - reflexivity.
  - intros s k Hin. apply list_elem_of_singleton in Hin. by simplify_eq.
  - reflexivity.
Defined.

(** ** [open], stage by stage *)

Section Opening.

Variable env : Env.

Definition is_local : bool :=
  bool_decide (setting env "device_location" VNone = VStr "local").

Definition is_network : bool :=
  bool_decide (setting env "device_location" VNone = VStr "network").

(** The transport class, the interface and the TLS request [open]
    settles on. *)
Definition selected_class : DeviceClass :=
  if is_local then SerialDevice else SocketDevice.

Definition selected_interface : Interface :=
  if is_local then IPath (setting env "device_path" VNone)
  else if is_network then
    IAddr (setting env "device_address" VNone) (setting env "device_port" VNone)
  else IAddr (VStr "localhost") (VInt 10000).

Definition selected_use_ssl : Value :=
  if is_local then VBool false
  else if is_network then setting env "use_ssl" (VBool false)
  else VBool false.

(** The baud rate handed to the transport: read from the settings for
    a local device, otherwise whatever the [Decoder] held. *)
Definition selected_baudrate (w : World) : Value :=
  if is_local then setting env "device_baudrate" VNone
  else _device_baudrate (decoder w).

(** The transport object as the constructor and the TLS block leave
    it. *)
Definition built_transport : Outcome Transport :=
  let device := {| devicetype := selected_class; interface := selected_interface;
                   ssl := false; ssl_ca := None; ssl_certificate := None;
                   ssl_key := None; events_bound := false; conn := Unopened |} in
  if truthy selected_use_ssl then
    match certificates env "AlarmDecoder CA" with
    | [ca] =>
        match certificates env "AlarmDecoder Internal" with
        | [internal] =>
            Returns (with_ssl (certificate_obj ca) (certificate_obj internal)
                       (key_obj internal) device)
        | [] => Raises NoResultFound
        | _ => Raises MultipleResultsFound
        end
    | [] => Raises NoResultFound
    | _ => Raises MultipleResultsFound
    end
  else Returns device.

(** The warning the two [except] clauses of [open] write. *)
Definition warned (e : Exn) (w : World) : World :=
  match e with
  | NoDeviceError msg =>
      set_app_log
        (app_log w ++ [{| log_level := WARNING;
                          log_text := "Open failed: " +:+ msg |}]) w
  | SSLError fn message =>
      set_app_log
        (app_log w ++ [{| log_level := WARNING;
                          log_text := "SSL connection failed: " +:+ fn +:+ " - "
                                      +:+ message |}]) w
  | _ => w
  end.

(** What [open] leaves behind, stage by stage. *)
Definition opened (w : World) : World * Res unit :=
  let w1 := upd_decoder (set_device_location (setting env "device_location" VNone))
              (upd_decoder (set_device_type (setting env "device_type" VNone)) w) in
  if truthy (setting env "device_type" VNone) then
    let w2 := if is_local
              then upd_decoder
                     (set_device_baudrate (setting env "device_baudrate" VNone)) w1
              else w1 in
    let w3 := set_transport_calls
                (transport_calls w2
                 ++ [TConstruct selected_class selected_interface]) w2 in
    match built_transport with
    | Raises e => (warned e w3, Raise e)
    | Returns device =>
        let t := with_events_bound device in
        let w4 := set_transport_calls
                    (transport_calls w3 ++ [TOpen (selected_baudrate w)])
                    (upd_decoder (set_device (Some t)) w3) in
        match transport_open env t (selected_baudrate w) with
        | Raises e => (warned e w4, Raise e)
        | Returns _ =>
            let w5 := upd_decoder (set_device (Some (with_conn Opened t))) w4 in
            match _on_device_open env w5 with
            | (w6, Raise e) => (warned e w6, Raise e)
            | r => r
            end
        end
    end
  else (w1, Ok tt).

Lemma open_spec w : open env w = opened w.
Proof.
  unfold open, opened, device_open, new_device, bind_events, certificate_one, logger.
  unfold built_transport, selected_baudrate, selected_use_ssl, selected_class,
    selected_interface, is_local, is_network.
  unfold_m. simpl.
  destruct (truthy (setting env "device_type" VNone)); [|done].
  case_bool_decide as Hlocal; simpl.
  { destruct (transport_open env _ _) as [[]|e]; simpl.
    - destruct (_on_device_open env _) as [w' [[]| e' |]]; try done; by destruct e'.
    - by destruct e. }
  case_bool_decide as Hnetwork; simpl.
  2:{ destruct (transport_open env _ _) as [[]|e]; simpl.
      - destruct (_on_device_open env _) as [w' [[]| e' |]]; try done; by destruct e'.
      - by destruct e. }
  destruct (truthy (setting env "use_ssl" (VBool false))); simpl.
  2:{ destruct (transport_open env _ _) as [[]|e]; simpl.
      - destruct (_on_device_open env _) as [w' [[]| e' |]]; try done; by destruct e'.
      - by destruct e. }
  destruct (certificates env "AlarmDecoder CA") as [|ca [|ca' cas]]; simpl; try done.
  destruct (certificates env "AlarmDecoder Internal") as [|int [|int' ints]];
    simpl; try done.
  destruct (transport_open env _ _) as [[]|e]; simpl.
  - destruct (_on_device_open env _) as [w' [[]| e' |]]; try done; by destruct e'.
  - by destruct e.
Qed.

End Opening.

Lemma _on_device_open_frame env w :
  device (decoder (_on_device_open env w).1) = device (decoder w)
  ∧ transport_calls (_on_device_open env w).1 = transport_calls w
  ∧ _device_baudrate (decoder (_on_device_open env w).1) = _device_baudrate (decoder w).
Proof.
  rewrite _on_device_open_spec. simpl. by destruct (send_failure _ _ _).
Qed.

Lemma warned_frame e w :
  decoder (warned e w) = decoder w
  ∧ transport_calls (warned e w) = transport_calls w
  ∧ delivered (warned e w) = delivered w.
Proof. by destruct e. Qed.

(** The world after an [open] in which every stage goes through. *)
Lemma open_goes_through env transport w :
  truthy (setting env "device_type" VNone) = true →
  built_transport env = Returns transport →
  transport_open env (with_events_bound transport) (selected_baudrate env w)
    = Returns tt →
  let packet := {| packet_type := "event"; packet_name := "device_open";
                   packet_args := jsonpickle_encode env ∅;
                   packet_endpoint := "/alarmdecoder" |} in
  (∀ session sock, (session, sock) ∈ sockets w →
     send_packet env sock packet = Returns tt) →
  let r := open env w in
  r.2 = Ok tt
  ∧ device (decoder r.1) = Some (with_conn Opened (with_events_bound transport))
  ∧ trigger_reopen_device (decoder r.1) = false
  ∧ transport_calls r.1
    = transport_calls w ++ [TConstruct (selected_class env) (selected_interface env);
                            TOpen (selected_baudrate env w)]
  ∧ delivered r.1 = delivered w ++ map (λ l, (l.1, packet)) (sockets w).
Proof.
  intros Hcfg Hbuilt Hopen packet Hall. simpl.
  rewrite open_spec. unfold opened. rewrite Hcfg, Hbuilt, Hopen.
  match goal with |- context [_on_device_open env ?w5] =>
    destruct (_on_device_open_outcome env w5) as [Hok _];
    pose proof (_on_device_open_frame env w5) as (Hdev & Hcalls & _);
    destruct (_on_device_open env w5) as [w6 r6]
  end.
  simpl in Hok. destruct Hok as (-> & Hflag & Hdelivered).
  { destruct (is_local env); apply Hall. }
  simpl in *. rewrite Hdev, Hcalls, Hflag, Hdelivered.
  repeat split; try done; destruct (is_local env); simpl;
    by rewrite <- ?app_assoc.
Qed.

(** X9.  A successful [open]: with a device type configured, the
    transport built from the settings, its [open] returning and every
    listener taking the "device_open" envelope, [open] returns, the
    handle is that transport with the event handlers bound and the
    connection open, the transport saw exactly a construction and an
    [open] with the selected baud rate, the listeners got one
    "device_open" each, and [trigger_reopen_device] is cleared. *)
Theorem open_connects env transport w :
  truthy (setting env "device_type" VNone) = true →
  built_transport env = Returns transport →
  transport_open env (with_events_bound transport) (selected_baudrate env w)
    = Returns tt →
  let packet := {| packet_type := "event"; packet_name := "device_open";
                   packet_args := jsonpickle_encode env ∅;
                   packet_endpoint := "/alarmdecoder" |} in
  (∀ session sock, (session, sock) ∈ sockets w →
     send_packet env sock packet = Returns tt) →
  let r := open env w in
  r.2 = Ok tt
  ∧ device (decoder r.1) = Some (with_conn Opened (with_events_bound transport))
  ∧ trigger_reopen_device (decoder r.1) = false
  ∧ transport_calls r.1
    = transport_calls w ++ [TConstruct (selected_class env) (selected_interface env);
                            TOpen (selected_baudrate env w)]
  ∧ delivered r.1 = delivered w ++ map (λ l, (l.1, packet)) (sockets w).
Proof. apply open_goes_through. Qed.

Lemma open_connects_witness :
  let r := open healthy quiet_world in
  r.2 = Ok tt
  ∧ (conn <$> device (decoder r.1)) = Some Opened
  ∧ trigger_reopen_device (decoder r.1) = false
  ∧ transport_calls r.1
    = [TConstruct SocketDevice (IAddr (VStr "10.0.0.5") (VInt 10000));
       TOpen (VInt 115200)].
Proof.
  destruct (open_connects healthy
              {| devicetype := SocketDevice;
                 interface := IAddr (VStr "10.0.0.5") (VInt 10000);
                 ssl := false; ssl_ca := None; ssl_certificate := None;
                 ssl_key := None; events_bound := false; conn := Unopened |}
              quiet_world) as (Hok & Hdev & Hflag & Hcalls & _).
  - reflexivity.
  - reflexivity.
  - reflexivity.
  - intros session sock _. reflexivity.
  - cbv zeta. rewrite Hok, Hdev, Hflag, Hcalls. repeat split.
Defined.

(** X10.  A failed connection attempt still replaces the handle: when
    the transport's [open] raises, [open] re-raises (after a warning
    for [NoDeviceError] and [SSL.Error]), but [self.device] is already
    the new transport, with the handlers bound and never opened; the
    transport it held before is dropped without being closed, and no
    listener hears of it. *)
Theorem failed_open_replaces_the_handle env transport e w :
  truthy (setting env "device_type" VNone) = true →
  built_transport env = Returns transport →
  transport_open env (with_events_bound transport) (selected_baudrate env w)
    = Raises e →
  let r := open env w in
  r.2 = Raise e
  ∧ device (decoder r.1) = Some (with_events_bound transport)
  ∧ transport_calls r.1
    = transport_calls w ++ [TConstruct (selected_class env) (selected_interface env);
                            TOpen (selected_baudrate env w)]
  ∧ delivered r.1 = delivered w.
Proof.
  intros Hcfg Hbuilt Hopen. simpl.
  rewrite open_spec. unfold opened. rewrite Hcfg, Hbuilt, Hopen. simpl.
  match goal with |- context [warned e ?w0] =>
    destruct (warned_frame e w0) as (Hd & Hc & Hdl)
  end.
  rewrite Hd, Hc, Hdl. simpl.
  repeat split; destruct (is_local env); simpl; by rewrite <- ?app_assoc.
Qed.

Lemma failed_open_replaces_the_handle_witness :
  let env := scenario (network_settings false) None None
               (Raises (NoDeviceError "Error opening device at 10.0.0.5:10000"))
               close_once in
  let r := open env connected_world in
  r.2 = Raise (NoDeviceError "Error opening device at 10.0.0.5:10000")
  ∧ (conn <$> device (decoder r.1)) = Some Unopened
  ∧ transport_calls r.1
    = [TConstruct SocketDevice (IAddr (VStr "10.0.0.5") (VInt 10000));
       TOpen (VInt 115200)]
  ∧ delivered r.1 = [].
Proof.
  destruct (failed_open_replaces_the_handle
              (scenario (network_settings false) None None
                 (Raises (NoDeviceError "Error opening device at 10.0.0.5:10000"))
                 close_once)
              {| devicetype := SocketDevice;
                 interface := IAddr (VStr "10.0.0.5") (VInt 10000);
                 ssl := false; ssl_ca := None; ssl_certificate := None;
                 ssl_key := None; events_bound := false; conn := Unopened |}
              (NoDeviceError "Error opening device at 10.0.0.5:10000")
              connected_world) as (Hraise & Hdev & Hcalls & Hdelivered).
  - reflexivity.
  - reflexivity.
  - reflexivity.
  - cbv zeta. rewrite Hraise, Hdev, Hcalls, Hdelivered. repeat split.
Defined.

Lemma built_transport_raises env e :
  built_transport env = Raises e → e = NoResultFound ∨ e = MultipleResultsFound.
Proof.
  unfold built_transport. destruct (truthy (selected_use_ssl env)); [|done].
  destruct (certificates env "AlarmDecoder CA") as [|ca [|ca' cas]];
    [naive_solver| |naive_solver].
  destruct (certificates env "AlarmDecoder Internal") as [|int [|int' ints]];
    naive_solver.
Qed.

(** X11.  When TLS is requested and a certificate lookup fails, [open]
    raises the lookup's exception after constructing the transport
    object and before anything else: the transport is never opened, the
    handle still refers to the previous device, no listener is told,
    and, as neither [except] clause matches, nothing is logged. *)
Theorem failed_certificate_lookup_stops_before_the_transport env e w :
  truthy (setting env "device_type" VNone) = true →
  built_transport env = Raises e →
  let r := open env w in
  r.2 = Raise e
  ∧ device (decoder r.1) = device (decoder w)
  ∧ transport_calls r.1
    = transport_calls w ++ [TConstruct (selected_class env) (selected_interface env)]
  ∧ delivered r.1 = delivered w
  ∧ app_log r.1 = app_log w.
Proof.
  intros Hcfg Hbuilt. simpl.
  rewrite open_spec. unfold opened. rewrite Hcfg, Hbuilt. simpl.
  destruct (built_transport_raises env e Hbuilt) as [-> | ->]; simpl;
    repeat split; by destruct (is_local env).
Qed.

Lemma failed_certificate_lookup_stops_before_the_transport_witness :
  let env := scenario (network_settings true) None None (Returns tt) close_once in
  let r := open env connected_world in
  r.2 = Raise NoResultFound
  ∧ device (decoder r.1) = device (decoder connected_world)
  ∧ transport_calls r.1
    = [TConstruct SocketDevice (IAddr (VStr "10.0.0.5") (VInt 10000))]
  ∧ delivered r.1 = []
  ∧ app_log r.1 = [].
Proof.
  apply (failed_certificate_lookup_stops_before_the_transport
           (scenario (network_settings true) None None (Returns tt) close_once)
           NoResultFound connected_world).
  - reflexivity.
  - reflexivity.
Defined.

(** X12.  For a device whose location is "local", [open] always builds
    a serial transport on [device_path] without TLS (the [use_ssl]
    setting and the certificate store are not consulted), takes the
    baud rate from the settings, and hands exactly that baud rate to
    the transport's [open], whether the transport then answers or
    not. *)
Theorem local_device_is_serial_without_tls env w :
  setting env "device_location" VNone = VStr "local" →
  truthy (setting env "device_type" VNone) = true →
  let r := open env w in
  ∃ state,
    device (decoder r.1)
    = Some {| devicetype := SerialDevice;
              interface := IPath (setting env "device_path" VNone);
              ssl := false; ssl_ca := None; ssl_certificate := None;
              ssl_key := None; events_bound := true; conn := state |}
    ∧ _device_baudrate (decoder r.1) = setting env "device_baudrate" VNone
    ∧ transport_calls r.1
      = transport_calls w
        ++ [TConstruct SerialDevice (IPath (setting env "device_path" VNone));
            TOpen (setting env "device_baudrate" VNone)].
Proof.
  intros Hlocal Hcfg. simpl.
  rewrite open_spec. unfold opened, built_transport, selected_use_ssl,
    selected_class, selected_interface, selected_baudrate, is_local.
  rewrite Hcfg, Hlocal. simpl.
  destruct (transport_open env _ _) as [[]|e]; simpl.
  - match goal with |- context [_on_device_open env ?w5] =>
      pose proof (_on_device_open_frame env w5) as (Hdev & Hcalls & Hbaud);
      destruct (_on_device_open env w5) as [w6 [[]| e |]]
    end; simpl in *;
      try (destruct (warned_frame e w6) as (Hd & Hc & _); rewrite Hd, Hc);
      rewrite Hdev, Hcalls, Hbaud; exists Opened;
      by rewrite <- app_assoc.
  - match goal with |- context [warned e ?w0] =>
      destruct (warned_frame e w0) as (Hd & Hc & _)
    end.
    rewrite Hd, Hc. simpl. exists Unopened. by rewrite <- app_assoc.
Qed.

Lemma local_device_is_serial_without_tls_witness :
  let store : gmap string Value :=
    <["device_type" := VStr "AD2USB"]>
      (<["device_location" := VStr "local"]>
         (<["device_path" := VStr "/dev/ttyUSB0"]>
            (<["device_baudrate" := VInt 19200]>
               (<["use_ssl" := VBool true]> ∅)))) in
  let env := scenario store None None (Returns tt) close_once in
  let r := open env quiet_world in
  ∃ state,
    device (decoder r.1)
    = Some {| devicetype := SerialDevice;
              interface := IPath (setting env "device_path" VNone);
              ssl := false; ssl_ca := None; ssl_certificate := None;
              ssl_key := None; events_bound := true; conn := state |}
    ∧ _device_baudrate (decoder r.1) = setting env "device_baudrate" VNone
    ∧ transport_calls r.1
      = transport_calls quiet_world
        ++ [TConstruct SerialDevice (IPath (setting env "device_path" VNone));
            TOpen (setting env "device_baudrate" VNone)].
Proof.
  apply (local_device_is_serial_without_tls
           (scenario
              (<["device_type" := VStr "AD2USB"]>
                 (<["device_location" := VStr "local"]>
                    (<["device_path" := VStr "/dev/ttyUSB0"]>
                       (<["device_baudrate" := VInt 19200]>
                          (<["use_ssl" := VBool true]> ∅)))))
              None None (Returns tt) close_once)
           quiet_world).
  - reflexivity.
  - reflexivity.
Defined.

(** ** [stop] *)

Lemma _on_device_close_frame env w :
  let w' := (_on_device_close env w).1 in
  event_thread_running w' = event_thread_running w
  ∧ version_thread_running w' = version_thread_running w
  ∧ websocket_running w' = websocket_running w
  ∧ trigger_restart (decoder w') = trigger_restart (decoder w)
  ∧ clock w' = clock w.
Proof.
  simpl. rewrite _on_device_close_spec. simpl. by destruct (send_failure _ _ _).
Qed.

Lemma close_spec env w :
  close env w
  = match device (decoder w) with
    | None => (w, Ok tt)
    | Some t =>
        let w1 := upd_decoder (set_device (Some (with_conn Closed t)))
                    (set_transport_calls (transport_calls w ++ [TClose]) w) in
        if notifies_close (transport_close env t) then
          match _on_device_close env w1 with
          | (w2, Ok _) => (w2, outcome_res (close_result (transport_close env t)))
          | (w2, Raise e) => (w2, Raise e)
          | (w2, Replaced) => (w2, Replaced)
          end
        else (w1, outcome_res (close_result (transport_close env t)))
    end.
Proof.
  unfold close. rewrite bind_spec. unfold self.
  destruct (device (decoder w)) as [t|]; [|done].
  unfold_m. simpl.
  destruct (notifies_close (transport_close env t)).
  - destruct (_on_device_close env _) as [w2 [[]| e |]]; try done.
    by destruct (close_result (transport_close env t)).
  - by destruct (close_result (transport_close env t)).
Qed.

(** [close] leaves the threads, the listener server, the restart flag
    and the clock alone, and never replaces the process. *)
Lemma close_frame env w :
  let r := close env w in
  event_thread_running r.1 = event_thread_running w
  ∧ version_thread_running r.1 = version_thread_running w
  ∧ websocket_running r.1 = websocket_running w
  ∧ trigger_restart (decoder r.1) = trigger_restart (decoder w)
  ∧ clock r.1 = clock w
  ∧ r.2 ≠ Replaced.
Proof.
  simpl. rewrite close_spec.
  destruct (device (decoder w)) as [t|]; [|by repeat split].
  cbv zeta.
  destruct (notifies_close (transport_close env t)).
  - match goal with |- context [_on_device_close env ?w0] =>
      pose proof (_on_device_close_frame env w0) as Hframe;
      pose proof (_on_device_close_spec env w0) as Hspec;
      destruct (_on_device_close env w0) as [w1 r1]
    end.
    simpl in Hframe, Hspec. destruct Hframe as (H1 & H2 & H3 & H4 & H5).
    assert (Hr : r1 ≠ Replaced) by (destruct (send_failure _ _ _); by simplify_eq).
    destruct r1 as [[]| e |]; simpl; [|by repeat split|done].
    by destruct (close_result (transport_close env t)).
  - by destruct (close_result (transport_close env t)).
Qed.

Definition stopping (w : World) : World := info_line "Stopping service.." w.

Definition threads_stopped (w : World) : World :=
  set_version_thread_running false (set_event_thread_running false w).

(** The outcome of the two joins under [except RuntimeError: pass]. *)
Definition joined (env : Env) : option Exn :=
  match join_event_thread env with
  | Returns _ =>
      match join_version_thread env with
      | Returns _ => None
      | Raises (RuntimeError _) => None
      | Raises e => Some e
      end
  | Raises (RuntimeError _) => None
  | Raises e => Some e
  end.

Lemma stop_spec env restart w :
  stop env restart w
  = match close env (stopping w) with
    | (w2, Ok _) =>
        if restart then
          match joined env with
          | None =>
              (info_line "Restarting service.."
                 (set_websocket_running false (threads_stopped w2)), Replaced)
          | Some e => (threads_stopped w2, Raise e)
          end
        else (set_websocket_running false (threads_stopped w2), Ok tt)
    | (w2, Raise e) => (w2, Raise e)
    | (w2, Replaced) => (w2, Replaced)
    end.
Proof.
  unfold stop. rewrite bind_spec. unfold logger at 1, modify at 1.
  fold (info_line "Stopping service.." w). fold (stopping w).
  rewrite bind_spec.
  destruct (close env (stopping w)) as [w2 [[]| e |]]; try done.
  unfold joined. unfold_m. simpl. destruct restart; [|done].
  destruct (join_event_thread env) as [[]|e1]; simpl.
  - destruct (join_version_thread env) as [[]|e2]; simpl; [done|].
    by destruct e2.
  - by destruct e1.
Qed.

(** X13.  [stop] without restart.  When closing the device goes
    through, both worker threads are told to stop and the listener
    server is stopped; the process is not replaced.  When closing
    raises, [stop] raises at once: the threads keep running and the
    listener server keeps accepting. *)
Theorem stop_halts_unless_close_raises env w :
  let r := stop env false w in
  let c := close env (stopping w) in
  (c.2 = Ok tt →
   r = (set_websocket_running false (threads_stopped c.1), Ok tt))
  ∧ (∀ e, c.2 = Raise e →
       r = (c.1, Raise e)
       ∧ event_thread_running r.1 = event_thread_running w
       ∧ version_thread_running r.1 = version_thread_running w
       ∧ websocket_running r.1 = websocket_running w).
Proof.
  simpl. rewrite stop_spec.
  pose proof (close_frame env (stopping w)) as (Hev & Hver & Hws & _ & _ & _).
  destruct (close env (stopping w)) as [w2 r2]. simpl in *. split.
  - intros ->. done.
  - intros e ->. by repeat split.
Qed.

Lemma stop_halts_unless_close_raises_witness :
  let r := stop healthy false connected_world in
  event_thread_running r.1 = false
  ∧ version_thread_running r.1 = false
  ∧ websocket_running r.1 = false
  ∧ r.2 = Ok tt.
Proof.
  cbv zeta.
  rewrite (proj1 (stop_halts_unless_close_raises healthy connected_world)).
  - repeat split.
  - reflexivity.
Defined.

(** X14.  [stop] with restart.  After a close that went through, a
    [RuntimeError] from joining a thread (joining the current thread,
    or one that was never started) is swallowed and the process image
    is replaced with both threads told to stop and the listener server
    stopped; any other exception from a join leaves [stop] at once,
    with the threads told to stop but the listener server still up and
    the process not replaced. *)
Theorem stop_restart_replaces_the_process env w :
  let r := stop env true w in
  let c := close env (stopping w) in
  c.2 = Ok tt →
  let halted := set_websocket_running false (threads_stopped c.1) in
  ((join_event_thread env = Returns tt ∧
    (join_version_thread env = Returns tt
     ∨ ∃ msg, join_version_thread env = Raises (RuntimeError msg))
    ∨ ∃ msg, join_event_thread env = Raises (RuntimeError msg)) →
   r = (info_line "Restarting service.." halted, Replaced))
  ∧ (∀ e, (∀ msg, e ≠ RuntimeError msg) →
       (join_event_thread env = Raises e
        ∨ join_event_thread env = Returns tt ∧ join_version_thread env = Raises e) →
       r = (threads_stopped c.1, Raise e)).
Proof.
  simpl. intros Hclose. rewrite stop_spec.
  destruct (close env (stopping w)) as [w2 r2]. simpl in *. subst r2.
  unfold joined. split.
  - intros [[-> [-> | [msg ->]]] | [msg ->]]; done.
  - intros e Hne [-> | [-> ->]]; destruct e; try done; by destruct (Hne msg).
Qed.

Lemma stop_restart_replaces_the_process_witness :
  let r := stop healthy true connected_world in
  r.2 = Replaced ∧ websocket_running r.1 = false.
Proof.
  cbv zeta.
  rewrite (proj1 (stop_restart_replaces_the_process healthy connected_world eq_refl)).
  - repeat split.
  - right. by eexists.
Defined.

(** ** The monitor, iteration by iteration *)

Definition attempting (w : World) : World :=
  info_line "Attempting to reconnect to the AlarmDecoder" w.

(** [time.sleep(self.TIMEOUT)], with the monitor's interval of 5. *)
Definition slept (w : World) : World := set_clock (clock w + 5) w.

(** An iteration without a restart request, by what [open] did. *)
Lemma run_iteration_spec env w :
  trigger_restart (decoder w) = false →
  run_iteration env w
  = if trigger_reopen_device (decoder w) then
      match open env (attempting w) with
      | (w2, Ok _) => (slept w2, Ok tt)
      | (w2, Raise (NoDeviceError msg)) =>
          (slept (set_app_log
                    (app_log w2 ++ [{| log_level := ERROR;
                                       log_text := "Device not found: " +:+ msg |}])
                    w2), Ok tt)
      | (w2, Raise e) =>
          (set_app_log
             (app_log w2 ++ [{| log_level := ERROR;
                                log_text := "Error in DecoderThread: " +:+ exn_str e |}])
             w2, Ok tt)
      | (w2, Replaced) => (w2, Replaced)
      end
    else (slept w, Ok tt).
Proof.
  intros Hrestart. unfold run_iteration, try_except.
  rewrite run_body_unfold, bind_spec.
  destruct (trigger_reopen_device (decoder w)).
  - unfold reconnect. rewrite bind_spec. unfold logger at 1, modify at 1.
    fold (info_line "Attempting to reconnect to the AlarmDecoder" w).
    fold (attempting w). unfold try_except.
    destruct (open_steady_unless_done env (attempting w)) as (_ & _ & Hrst & _ & _).
    destruct (open env (attempting w)) as [w2 [[]| e |]]; simpl in *.
    + unfold_m. simpl. by rewrite Hrst, Hrestart.
    + destruct e; try done.
      unfold logger, time_sleep. unfold_m. simpl. by rewrite Hrst, Hrestart.
    + done.
  - unfold_m. simpl. by rewrite Hrestart.
Qed.

(** X15.  The monitor sleeps only at the end of the [try] block.  An
    iteration in which [open] fails with anything but [NoDeviceError]
    (a missing certificate, a failed TLS handshake) logs "Error in
    DecoderThread" and goes straight back to the loop test: the clock
    has not advanced, the flag is still set, and the next attempt
    follows without the interval in between. *)
Theorem monitor_retries_without_sleeping env e w :
  trigger_reopen_device (decoder w) = true →
  trigger_restart (decoder w) = false →
  truthy (setting env "device_type" VNone) = true →
  open_failure env e →
  (∀ msg, e ≠ NoDeviceError msg) →
  let r := run_iteration env w in
  r.2 = Ok tt
  ∧ clock r.1 = clock w
  ∧ trigger_reopen_device (decoder r.1) = true
  ∧ event_thread_running r.1 = event_thread_running w
  ∧ {| log_level := ERROR; log_text := "Error in DecoderThread: " +:+ exn_str e |}
      ∈ app_log r.1.
Proof.
  intros Hreopen Hrestart Hcfg Hfail Hother. simpl.
  rewrite (run_iteration_spec env w Hrestart), Hreopen.
  destruct (open_raises_keeps_reopen env e (attempting w) Hcfg Hfail) as [Hraise Hflag].
  destruct (open_steady_unless_done env (attempting w)) as (_ & Hrun & _ & Hclock & _).
  destruct (open env (attempting w)) as [w2 r2]. simpl in *. subst r2.
  destruct e; try (by destruct (Hother msg)); simpl;
    rewrite Hflag, Hrun, Hclock; repeat split; try done;
    rewrite elem_of_app; right; apply list_elem_of_here.
Qed.

Lemma monitor_retries_without_sleeping_witness :
  let env := scenario (network_settings true) None None (Returns tt) close_once in
  let r := run_iteration env quiet_world in
  r.2 = Ok tt
  ∧ clock r.1 = clock quiet_world
  ∧ trigger_reopen_device (decoder r.1) = true
  ∧ event_thread_running r.1 = event_thread_running quiet_world
  ∧ {| log_level := ERROR;
       log_text := "Error in DecoderThread: " +:+ exn_str NoResultFound |}
      ∈ app_log r.1.
Proof.
  apply (monitor_retries_without_sleeping
           (scenario (network_settings true) None None (Returns tt) close_once)
           NoResultFound quiet_world).
  - reflexivity.
  - reflexivity.
  - reflexivity.
  - apply ca_certificate_missing; [split; reflexivity|reflexivity].
  - intros msg. discriminate.
Defined.

(** X16.  With neither trigger flag set the monitor only sleeps: any
    number of iterations leave the whole state as it was except for
    the clock, which advances by the interval of 5 per iteration. *)
Theorem idle_monitor_only_sleeps env n w :
  event_thread_running w = true →
  trigger_reopen_device (decoder w) = false →
  trigger_restart (decoder w) = false →
  run_loop env n w = (set_clock (clock w + Z.of_nat n * 5) w, Ok StillLooping).
Proof.
  revert w. induction n as [|n IH]; intros w Hrun Hreopen Hrestart.
  - simpl. unfold_m. rewrite Z.add_0_r. by destruct w.
  - cbn [run_loop]. rewrite bind_spec. unfold gets at 1. rewrite Hrun.
    rewrite bind_spec, (run_iteration_spec env w Hrestart), Hreopen.
    rewrite (IH (slept w)) by done.
    f_equal. unfold slept, set_clock. simpl. f_equal. lia.
Qed.

Lemma idle_monitor_only_sleeps_witness :
  run_loop healthy 3
    (upd_decoder (set_trigger_reopen_device false) quiet_world)
  = (set_clock 1015 (upd_decoder (set_trigger_reopen_device false) quiet_world),
     Ok StillLooping).
Proof.
  exact (idle_monitor_only_sleeps healthy 3
           (upd_decoder (set_trigger_reopen_device false) quiet_world)
           eq_refl eq_refl eq_refl).
Defined.

(** X17.  A reconnection that succeeds ends the reconnecting: when the
    flag is set and [open] goes through, the iteration leaves the device
    open, the flag cleared and the clock one interval later, so the
    iterations that follow are idle ones. *)
Theorem monitor_reconnects_once env transport w :
  trigger_reopen_device (decoder w) = true →
  trigger_restart (decoder w) = false →
  truthy (setting env "device_type" VNone) = true →
  built_transport env = Returns transport →
  transport_open env (with_events_bound transport) (selected_baudrate env w)
    = Returns tt →
  (∀ session sock, (session, sock) ∈ sockets w →
     send_packet env sock
       {| packet_type := "event"; packet_name := "device_open";
          packet_args := jsonpickle_encode env ∅;
          packet_endpoint := "/alarmdecoder" |} = Returns tt) →
  let r := run_iteration env w in
  r.2 = Ok tt
  ∧ device (decoder r.1) = Some (with_conn Opened (with_events_bound transport))
  ∧ trigger_reopen_device (decoder r.1) = false
  ∧ trigger_restart (decoder r.1) = false
  ∧ clock r.1 = clock w + 5
  ∧ transport_calls r.1
    = transport_calls w ++ [TConstruct (selected_class env) (selected_interface env);
                            TOpen (selected_baudrate env w)].
Proof.
  intros Hreopen Hrestart Hcfg Hbuilt Hopen Hall. simpl.
  rewrite (run_iteration_spec env w Hrestart), Hreopen.
  destruct (open_goes_through env transport (attempting w) Hcfg Hbuilt Hopen Hall)
    as (Hok & Hdev & Hflag & Hcalls & _).
  destruct (open_steady_unless_done env (attempting w)) as (_ & _ & Hrst & Hclock & _).
  destruct (open env (attempting w)) as [w2 r2]. simpl in *. subst r2.
  simpl. rewrite Hdev, Hflag, Hrst, Hclock, Hcalls. by repeat split.
Qed.

Lemma monitor_reconnects_once_witness :
  let r := run_iteration healthy quiet_world in
  r.2 = Ok tt
  ∧ (conn <$> device (decoder r.1)) = Some Opened
  ∧ trigger_reopen_device (decoder r.1) = false
  ∧ clock r.1 = 1005.
Proof.
  destruct (monitor_reconnects_once healthy
              {| devicetype := SocketDevice;
                 interface := IAddr (VStr "10.0.0.5") (VInt 10000);
                 ssl := false; ssl_ca := None; ssl_certificate := None;
                 ssl_key := None; events_bound := false; conn := Unopened |}
              quiet_world) as (Hok & Hdev & Hflag & _ & Hclock & _).
  - reflexivity.
  - reflexivity.
  - reflexivity.
  - reflexivity.
  - reflexivity.
  - intros session sock _. reflexivity.
  - cbv zeta. rewrite Hok, Hdev, Hflag, Hclock. repeat split.
Defined.

(** An iteration on an installation without a device type: [open]
    returns at its first test. *)
Lemma unconfigured_iteration env w :
  truthy (setting env "device_type" VNone) = false →
  trigger_restart (decoder w) = false →
  let r := run_iteration env w in
  r.2 = Ok tt
  ∧ event_thread_running r.1 = event_thread_running w
  ∧ trigger_restart (decoder r.1) = false
  ∧ transport_calls r.1 = transport_calls w
  ∧ device (decoder r.1) = device (decoder w)
  ∧ trigger_reopen_device (decoder r.1) = trigger_reopen_device (decoder w)
  ∧ delivered r.1 = delivered w.
Proof.
  intros Hcfg Hrestart. simpl.
  rewrite (run_iteration_spec env w Hrestart).
  destruct (trigger_reopen_device (decoder w)) eqn:Hreopen.
  - rewrite open_spec. unfold opened. rewrite Hcfg. simpl.
    by rewrite Hrestart, Hreopen.
  - simpl. by rewrite Hrestart, Hreopen.
Qed.

Lemma run_loop_step env n w :
  event_thread_running w = true →
  run_loop env (S n) w
  = match run_iteration env w with
    | (w', Ok _) => run_loop env n w'
    | (w', Raise e) => (w', Raise e)
    | (w', Replaced) => (w', Replaced)
    end.
Proof.
  intros Hrun. cbn [run_loop]. rewrite bind_spec. unfold gets. by rewrite Hrun.
Qed.

(** X18.  Without a device type in the settings the monitor never
    reaches a transport: however many iterations it runs, and whether
    or not [trigger_reopen_device] is set, no transport is constructed
    or opened, the device handle and the flag stay as they were, no
    listener is told anything, and the loop keeps going. *)
Theorem unconfigured_monitor_never_touches_a_transport env n w :
  truthy (setting env "device_type" VNone) = false →
  event_thread_running w = true →
  trigger_restart (decoder w) = false →
  let r := run_loop env n w in
  r.2 = Ok StillLooping
  ∧ transport_calls r.1 = transport_calls w
  ∧ device (decoder r.1) = device (decoder w)
  ∧ trigger_reopen_device (decoder r.1) = trigger_reopen_device (decoder w)
  ∧ delivered r.1 = delivered w.
Proof.
  intros Hcfg. revert w. induction n as [|n IH]; intros w Hrun Hrestart; [done|].
  cbv zeta. rewrite (run_loop_step env n w Hrun).
  destruct (unconfigured_iteration env w Hcfg Hrestart)
    as (Hok & Hrun' & Hrestart' & Hcalls & Hdev & Hflag & Hdelivered).
  destruct (run_iteration env w) as [w' r']. simpl in *. subst r'.
  destruct (IH w') as (? & ? & ? & ? & ?); [congruence|done|].
  repeat split; congruence.
Qed.

Lemma unconfigured_monitor_never_touches_a_transport_witness :
  let r := run_loop (scenario ∅ None None (Returns tt) close_once) 4 quiet_world in
  r.2 = Ok StillLooping
  ∧ transport_calls r.1 = transport_calls quiet_world
  ∧ device (decoder r.1) = device (decoder quiet_world)
  ∧ trigger_reopen_device (decoder r.1) = trigger_reopen_device (decoder quiet_world)
  ∧ delivered r.1 = delivered quiet_world.
Proof.
  exact (unconfigured_monitor_never_touches_a_transport
           (scenario ∅ None None (Returns tt) close_once) 4 quiet_world
           eq_refl eq_refl eq_refl).
Defined.

(** Whatever happens afterwards, a configured [open] starts by
    constructing the transport the settings select. *)
Lemma open_constructs_first env w :
  truthy (setting env "device_type" VNone) = true →
  ∃ rest,
    transport_calls (open env w).1
    = transport_calls w
      ++ TConstruct (selected_class env) (selected_interface env) :: rest.
Proof.
  intros Hcfg. rewrite open_spec. unfold opened. rewrite Hcfg.
  assert (Hbase : ∀ w0 : World,
            transport_calls
              (if is_local env
               then upd_decoder
                      (set_device_baudrate (setting env "device_baudrate" VNone)) w0
               else w0) = transport_calls w0)
    by (intros w0; by destruct (is_local env)).
  destruct (built_transport env) as [t|e]; simpl.
  - destruct (transport_open env _ _) as [[]|e]; simpl.
    + match goal with |- context [_on_device_open env ?w5] =>
        pose proof (_on_device_open_frame env w5) as (_ & Hcalls & _);
        destruct (_on_device_open env w5) as [w6 [[]| e |]]
      end; simpl in *;
        try (destruct (warned_frame e w6) as (_ & -> & _));
        rewrite Hcalls, Hbase; eexists; by rewrite <- app_assoc.
    + match goal with |- context [warned e ?w0] =>
        destruct (warned_frame e w0) as (_ & -> & _)
      end.
      simpl. rewrite Hbase. eexists. by rewrite <- app_assoc.
  - match goal with |- context [warned e ?w0] =>
      destruct (warned_frame e w0) as (_ & -> & _)
    end.
    simpl. rewrite Hbase. by exists [].
Qed.

(** X19.  [init] arms the monitor exactly when a device type is
    configured: on a configured installation the first iteration after
    [init] constructs the transport the settings select, whatever the
    flag was before; on an unconfigured one [init] changes nothing. *)
Theorem init_arms_the_monitor env w :
  trigger_restart (decoder w) = false →
  (truthy (setting env "device_type" VNone) = true →
   (init env w).2 = Ok tt
   ∧ ∃ rest,
       transport_calls (run_iteration env (init env w).1).1
       = transport_calls w
         ++ TConstruct (selected_class env) (selected_interface env) :: rest)
  ∧ (truthy (setting env "device_type" VNone) = false →
     init env w = (w, Ok tt)).
Proof.
  intros Hrestart. unfold init. split; intros Hcfg; rewrite Hcfg; [|done].
  split; [done|].
  unfold modify; simpl.
  rewrite run_iteration_spec by done. simpl.
  destruct (open_constructs_first env
              (attempting (upd_decoder (set_trigger_reopen_device true) w)) Hcfg)
    as [rest Hcalls].
  destruct (open env _) as [w2 [[]| e |]]; simpl in *;
    [|destruct e|]; simpl; rewrite Hcalls; by eexists.
Qed.

Lemma init_arms_the_monitor_witness :
  let w := upd_decoder (set_trigger_reopen_device false) quiet_world in
  ∃ rest,
    transport_calls (run_iteration healthy (init healthy w).1).1
    = transport_calls w
      ++ TConstruct (selected_class healthy) (selected_interface healthy) :: rest.
Proof.
  apply (proj1 (init_arms_the_monitor healthy
           (upd_decoder (set_trigger_reopen_device false) quiet_world) eq_refl)).
  reflexivity.
Defined.

(** ** [DecoderNamespace.on_keypress] *)

Module Keypad.

(** What is handed to [device.send]: one of the key constants of the
    [AlarmDecoder] class, or the key as the listener sent it. *)
Inductive Keys :=
  | KEY_F1 | KEY_F2 | KEY_F3 | KEY_F4 | KEY_PANIC
  | Literal (key : Value).

(** Python's [key == n] for an integer literal [n]: an integer equal to
    [n], or a boolean whose integer value is [n]; a string or [None]
    is never equal to a number. *)
Definition py_eq_int (key : Value) (n : Z) : bool :=
  match key with
  | VInt z => Z.eqb z n
  | VBool b => Z.eqb (if b then 1 else 0) n
  | _ => false
  end.

(** The listener's state as this handler sees it: the world, and the
    keys the device has accepted. *)
Record Console := {
  world : World;
  sent : list Keys
}.

Definition log_error (text : string) (c : Console) : Console :=
  {| world := set_app_log
                (app_log (world c)
                 ++ [{| log_level := ERROR; log_text := text |}]) (world c);
     sent := sent c |}.

Section Handler.

(** [device.send(data)] as the transport answers it. *)
Variable device_send : Keys → Outcome unit.

(** [self._alarmdecoder.device.send(data)]. *)
Definition send (data : Keys) (c : Console) : Console * Res unit :=
  match device (decoder (world c)) with
  | None => (c, Raise (AttributeError "'NoneType' object has no attribute 'send'"))
  | Some _ =>
      match device_send data with
      | Returns _ => ({| world := world c; sent := sent c ++ [data] |}, Ok tt)
      | Raises e => (c, Raise e)
      end
  end.

Definition on_keypress (key : Value) (c : Console) : Console * Res unit :=
  match
    (if py_eq_int key 1 then send KEY_F1 c
     else if py_eq_int key 2 then send KEY_F2 c
     else if py_eq_int key 3 then send KEY_F3 c
     else if py_eq_int key 4 then send KEY_F4 c
     else if py_eq_int key 5 then send KEY_PANIC c
     else send (Literal key) c)
  with
  | (c', Raise (CommError _)) =>
      (log_error "Error sending keypress to device" c', Ok tt)
  | r => r
  end.

End Handler.

(** The key a keypress stands for. *)
Definition key_for (key : Value) : Keys :=
  if py_eq_int key 1 then KEY_F1
  else if py_eq_int key 2 then KEY_F2
  else if py_eq_int key 3 then KEY_F3
  else if py_eq_int key 4 then KEY_F4
  else if py_eq_int key 5 then KEY_PANIC
  else Literal key.

End Keypad.

(** X20.  [on_keypress] makes at most one [send]: the function or
    panic key for a key equal to 1..5, the key itself otherwise (a
    string such as "1" is passed on as it is).  With a device that
    accepts the key, exactly that key is sent; a [CommError] from the
    transport is logged and contained with nothing sent; any other
    exception, and the [AttributeError] of a session without a device,
    leave the handler unlogged. *)
Theorem keypress_sends_one_key_and_contains_comm_errors device_send key c :
  let r := Keypad.on_keypress device_send key c in
  let data := Keypad.key_for key in
  (device (decoder (Keypad.world c)) = None →
   r = (c, Raise (AttributeError "'NoneType' object has no attribute 'send'")))
  ∧ (∀ t, device (decoder (Keypad.world c)) = Some t →
       (device_send data = Returns tt →
        r = ({| Keypad.world := Keypad.world c;
                Keypad.sent := Keypad.sent c ++ [data] |}, Ok tt))
       ∧ (∀ msg, device_send data = Raises (CommError msg) →
            r = (Keypad.log_error "Error sending keypress to device" c, Ok tt))
       ∧ (∀ e, device_send data = Raises e → (∀ msg, e ≠ CommError msg) →
            r = (c, Raise e)))
  ∧ (Keypad.key_for (VStr "1") = Keypad.Literal (VStr "1")
     ∧ ∀ z, (z < 1 ∨ 5 < z) → Keypad.key_for (VInt z) = Keypad.Literal (VInt z)).
Proof.
  simpl. unfold Keypad.on_keypress, Keypad.key_for, Keypad.send.
  split; [|split; [|split]].
  - intros ->. by repeat case_match.
  - intros t ->. split; [|split].
    + intros Hsend. by repeat (case_match; simplify_eq).
    + intros msg Hsend. by repeat (case_match; simplify_eq).
    + intros e Hsend Hne.
      repeat (case_match; simplify_eq); try done; by destruct (Hne msg).
  - done.
  - intros z Hz. unfold Keypad.py_eq_int.
    repeat case_match; try done; lia.
Qed.

Lemma keypress_sends_one_key_and_contains_comm_errors_witness :
  let c := {| Keypad.world := connected_world; Keypad.sent := [] |} in
  Keypad.on_keypress (λ _, Returns tt) (VInt 3) c
  = ({| Keypad.world := connected_world; Keypad.sent := [Keypad.KEY_F3] |}, Ok tt).
Proof.
  destruct (keypress_sends_one_key_and_contains_comm_errors (λ _, Returns tt) (VInt 3)
              {| Keypad.world := connected_world; Keypad.sent := [] |})
    as (_ & Hdevice & _).
  destruct (Hdevice _ eq_refl) as (Hsent & _).
  exact (Hsent eq_refl).
Defined.

(** ** The update poller: [VersionChecker] *)

Module Poller.

(** What the poller thread reads and writes: the [updates] slot of the
    [Decoder], its own running flag, and the clock. *)
Record State := {
  updates : gmap string Value;
  running : bool;
  now : Z
}.

Definition INTERVAL : Z := 60 * 10.

Section Run.

(** [Updater.check_updates()], as a function of the time of the call. *)
Variable check_updates : Z → Outcome (gmap string Value).

(** One pass through the loop body: no [try] surrounds the call. *)
Definition iteration (s : State) : State * Res unit :=
  match check_updates (now s) with
  | Returns found =>
      ({| updates := found; running := running s; now := now s + INTERVAL |}, Ok tt)
  | Raises e => (s, Raise e)
  end.

Fixpoint run_loop (iterations : nat) (s : State) : State * Res LoopEnd :=
  match iterations with
  | O => (s, Ok StillLooping)
  | S n =>
      if running s then
        match iteration s with
        | (s', Ok _) => run_loop n s'
        | (s', Raise e) => (s', Raise e)
        | (s', Replaced) => (s', Replaced)
        end
      else (s, Ok Exited)
  end.

Definition run (iterations : nat) (s : State) : State * Res LoopEnd :=
  run_loop iterations {| updates := updates s; running := true; now := now s |}.

End Run.

End Poller.

Lemma poller_run_loop_prefix check_updates n s :
  Poller.running s = true →
  (∀ k, (k < n)%nat →
        ∃ found, check_updates (Poller.now s + Z.of_nat k * 600) = Returns found) →
  ∃ s',
    Poller.run_loop check_updates n s = (s', Ok StillLooping)
    ∧ Poller.running s' = true
    ∧ Poller.now s' = Poller.now s + Z.of_nat n * 600
    ∧ ∀ more, Poller.run_loop check_updates (n + more) s
              = Poller.run_loop check_updates more s'.
Proof.
  revert s. induction n as [|n IH]; intros s Hrun Hall.
  - exists s. split; [done|]. split; [done|]. split; [simpl; lia|done].
  - destruct (Hall 0%nat ltac:(lia)) as [first Hfirst].
    rewrite Z.add_0_r in Hfirst.
    set (s1 := {| Poller.updates := first; Poller.running := Poller.running s;
                  Poller.now := Poller.now s + Poller.INTERVAL |}).
    destruct (IH s1) as (s' & Hloop & Hrun' & Hnow & Hmore); [done| |].
    { intros k Hk. destruct (Hall (S k) ltac:(lia)) as [found Hfound].
      exists found. rewrite <- Hfound. f_equal. simpl. unfold Poller.INTERVAL. lia. }
    exists s'.
    assert (Hstep : ∀ m, Poller.run_loop check_updates (S m) s
                         = Poller.run_loop check_updates m s1).
    { intros m. cbn [Poller.run_loop]. rewrite Hrun.
      unfold Poller.iteration. by rewrite Hfirst. }
    split; [by rewrite Hstep|]. split; [done|]. split.
    + rewrite Hnow. simpl. unfold Poller.INTERVAL. lia.
    + intros more. change (S n + more)%nat with (S (n + more)).
      by rewrite Hstep.
Qed.

(** X21.  The poller has no exception handling of its own.  While
    [check_updates] returns, every iteration stores the result in the
    [updates] slot and sleeps 600, so after [n+1] iterations the slot
    holds the result of the check made at the start of the last one.
    The first check that raises ends the thread with that exception,
    in the state the completed iterations left: the slot keeps the
    result of the check before it, and no later check is made. *)
Theorem poller_stops_at_the_first_failed_check check_updates n s :
  (∀ k, (k < n)%nat →
        ∃ found, check_updates (Poller.now s + Z.of_nat k * 600) = Returns found) →
  (∀ found,
     check_updates (Poller.now s + Z.of_nat n * 600) = Returns found →
     Poller.run check_updates (S n) s
     = ({| Poller.updates := found; Poller.running := true;
           Poller.now := Poller.now s + Z.of_nat (S n) * 600 |}, Ok StillLooping))
  ∧ (∀ e,
       check_updates (Poller.now s + Z.of_nat n * 600) = Raises e →
       ∀ more,
         Poller.run check_updates (S n + more) s
         = ((Poller.run check_updates n s).1, Raise e)).
Proof.
  intros Hall. unfold Poller.run.
  set (s0 := {| Poller.updates := Poller.updates s; Poller.running := true;
                Poller.now := Poller.now s |}).
  destruct (poller_run_loop_prefix check_updates n s0 eq_refl Hall)
    as (s' & Hloop & Hrun' & Hnow & Hmore).
  simpl in Hnow. split.
  - intros found Hfound.
    replace (S n) with (n + 1)%nat by lia. rewrite Hmore.
    cbn [Poller.run_loop]. rewrite Hrun'. unfold Poller.iteration.
    rewrite Hnow, Hfound, Hrun'. do 2 f_equal. unfold Poller.INTERVAL. lia.
  - intros e He more.
    replace (S n + more)%nat with (n + S more)%nat by lia. rewrite Hmore, Hloop.
    cbn [Poller.run_loop]. rewrite Hrun'. unfold Poller.iteration.
    by rewrite Hnow, He.
Qed.

Lemma poller_stops_at_the_first_failed_check_witness :
  let check := λ t : Z, if Z.ltb t 1000
                        then Returns (<["version" := VInt t]> ∅)
                        else Raises (OtherError "network is unreachable") in
  let s := {| Poller.updates := ∅; Poller.running := false; Poller.now := 0 |} in
  Poller.run check (S 2 + 5) s
  = ((Poller.run check 2 s).1, Raise (OtherError "network is unreachable")).
Proof.
  apply (proj2 (poller_stops_at_the_first_failed_check
           (λ t : Z, if Z.ltb t 1000
                     then Returns (<["version" := VInt t]> ∅)
                     else Raises (OtherError "network is unreachable"))
           2 {| Poller.updates := ∅; Poller.running := false; Poller.now := 0 |}
           ltac:(intros k Hk; destruct k as [|[|k]]; [by eexists|by eexists|lia]))).
  reflexivity.
Defined.

(** ** The first device test: [DecoderNamespace._test_open] *)

Section TestOpen.

Variable env : Env.

(** [err[1][1]] in the [NoDeviceError] clause: the text of the
    operating-system error the transport wrapped.  The exception model
    carries the message only, so the text is taken as given. *)
Variable strerror : string.

(** The payload of a test broadcast. *)
Definition test_report (name results details : string) : gmap string Value :=
  <["test" := VStr name]>
    (<["results" := VStr results]> (<["details" := VStr details]> ∅)).

Definition _test_open : M unit :=
  '(results, details) ←
    try_except
      (close env;; open env;; mret ("PASS", ""))
      (λ err,
         match err with
         | NoDeviceError msg =>
             logger ERROR "Error while testing device open.";;
             mret ("FAIL", msg +:+ ": " +:+ strerror)
         | _ =>
             logger ERROR "Error while testing device open.";;
             mret ("FAIL", "Failed to open the device: " +:+ exn_str err)
         end);
  broadcast env "test" (test_report "open" results details).

(** The detail text of a failed open. *)
Definition open_failure_details (e : Exn) : string :=
  match e with
  | NoDeviceError msg => msg +:+ ": " +:+ strerror
  | _ => "Failed to open the device: " +:+ exn_str e
  end.

Lemma _test_open_spec w :
  _test_open w
  = match (close env;; open env) w with
    | (w1, Ok _) => broadcast env "test" (test_report "open" "PASS" "") w1
    | (w1, Raise e) =>
        broadcast env "test" (test_report "open" "FAIL" (open_failure_details e))
          (set_app_log
             (app_log w1 ++ [{| log_level := ERROR;
                                log_text := "Error while testing device open." |}])
             w1)
    | (w1, Replaced) => (w1, Replaced)
    end.
Proof.
  unfold _test_open, try_except, logger. unfold_m.
  destruct (close env w) as [w0 [[]| e |]]; simpl; [|by destruct e|done].
  destruct (open env w0) as [w1 [[]| e |]]; simpl; try done.
  by destruct e.
Qed.

End TestOpen.

(** X22.  The open test reports PASS on an installation that has no
    device type configured and no device: [close] and [open] both
    return without doing anything, so every listener is sent the report
    with results "PASS" and empty details although no transport was
    constructed or opened. *)
Theorem test_open_passes_without_a_device env strerror w :
  truthy (setting env "device_type" VNone) = false →
  device (decoder w) = None →
  let packet := {| packet_type := "event"; packet_name := "test";
                   packet_args := jsonpickle_encode env (test_report "open" "PASS" "");
                   packet_endpoint := "/alarmdecoder" |} in
  (∀ session sock, (session, sock) ∈ sockets w →
     send_packet env sock packet = Returns tt) →
  let r := _test_open env strerror w in
  r.2 = Ok tt
  ∧ delivered r.1 = delivered w ++ map (λ l, (l.1, packet)) (sockets w)
  ∧ transport_calls r.1 = transport_calls w
  ∧ device (decoder r.1) = None.
Proof.
  intros Hcfg Hdev packet Hall. simpl.
  rewrite _test_open_spec, bind_spec, close_spec, Hdev, open_spec.
  unfold opened. rewrite Hcfg. rewrite broadcast_spec. cbv zeta.
  unfold _make_packet. fold packet. simpl.
  destruct (reached_all env packet (sockets w) Hall) as [-> ->].
  simpl. by rewrite Hdev.
Qed.

Lemma test_open_passes_without_a_device_witness :
  let env := scenario ∅ None None (Returns tt) close_once in
  let r := _test_open env "Connection refused" quiet_world in
  let packet := {| packet_type := "event"; packet_name := "test";
                   packet_args := jsonpickle_encode env (test_report "open" "PASS" "");
                   packet_endpoint := "/alarmdecoder" |} in
  r.2 = Ok tt
  ∧ delivered r.1 = delivered quiet_world ++ map (λ l, (l.1, packet)) (sockets quiet_world)
  ∧ transport_calls r.1 = transport_calls quiet_world
  ∧ device (decoder r.1) = None.
Proof.
  apply (test_open_passes_without_a_device
           (scenario ∅ None None (Returns tt) close_once) "Connection refused"
           quiet_world).
  - reflexivity.
  - reflexivity.
  - intros session sock _. reflexivity.
Defined.

(** [open] never changes who is listening. *)
Lemma open_sockets env w : sockets (open env w).1 = sockets w.
Proof.
  rewrite open_spec. unfold opened.
  destruct (truthy (setting env "device_type" VNone)); [|done].
  assert (Hwarned : ∀ e w0, sockets (warned e w0) = sockets w0)
    by (intros e w0; by destruct e).
  destruct (built_transport env) as [t|e]; simpl.
  - destruct (transport_open env _ _) as [[]|e]; simpl.
    + match goal with |- context [_on_device_open env ?w5] =>
        pose proof (_on_device_open_spec env w5) as Hspec;
        destruct (_on_device_open env w5) as [w6 r6]
      end.
      simpl in Hspec.
      destruct (send_failure _ _ _); simplify_eq; simpl;
        rewrite ?Hwarned; simpl; by destruct (is_local env).
    + rewrite Hwarned. simpl. by destruct (is_local env).
  - rewrite Hwarned. simpl. by destruct (is_local env).
Qed.

(** X23.  The open test contains a failed open.  On a session without
    a device, when the transport's [open] raises, the test logs the
    error, returns normally and sends every listener one report with
    results "FAIL" and the exception's text as details; nothing else
    is sent. *)
Theorem test_open_reports_a_failed_open env strerror transport e w :
  truthy (setting env "device_type" VNone) = true →
  device (decoder w) = None →
  built_transport env = Returns transport →
  transport_open env (with_events_bound transport) (selected_baudrate env w)
    = Raises e →
  let packet :=
    {| packet_type := "event"; packet_name := "test";
       packet_args :=
         jsonpickle_encode env
           (test_report "open" "FAIL" (open_failure_details strerror e));
       packet_endpoint := "/alarmdecoder" |} in
  (∀ session sock, (session, sock) ∈ sockets w →
     send_packet env sock packet = Returns tt) →
  let r := _test_open env strerror w in
  r.2 = Ok tt
  ∧ delivered r.1 = delivered w ++ map (λ l, (l.1, packet)) (sockets w)
  ∧ {| log_level := ERROR; log_text := "Error while testing device open." |}
      ∈ app_log r.1.
Proof.
  intros Hcfg Hdev Hbuilt Hopen packet Hall. simpl.
  rewrite _test_open_spec, bind_spec, close_spec, Hdev.
  pose proof (open_sockets env w) as Hsocks.
  assert (Hfacts : (open env w).2 = Raise e ∧ delivered (open env w).1 = delivered w).
  { rewrite open_spec. unfold opened. rewrite Hcfg, Hbuilt, Hopen. simpl.
    split; [done|].
    match goal with |- context [warned e ?w0] =>
      destruct (warned_frame e w0) as (_ & _ & ->)
    end.
    simpl. by destruct (is_local env). }
  destruct Hfacts as [Hraise Hdelivered].
  destruct (open env w) as [w1 r1]. simpl in *. subst r1.
  rewrite broadcast_spec. cbv zeta. unfold _make_packet. fold packet. simpl.
  rewrite Hsocks, Hdelivered.
  destruct (reached_all env packet (sockets w) Hall) as [-> ->].
  simpl. split; [done|]. split; [done|].
  rewrite elem_of_app. right. apply list_elem_of_here.
Qed.

Lemma test_open_reports_a_failed_open_witness :
  let env := scenario (network_settings false) None None
               (Raises (NoDeviceError "Error opening device at 10.0.0.5:10000"))
               close_once in
  let r := _test_open env "Connection refused" quiet_world in
  let packet :=
    {| packet_type := "event"; packet_name := "test";
       packet_args :=
         jsonpickle_encode env
           (test_report "open" "FAIL"
              "Error opening device at 10.0.0.5:10000: Connection refused");
       packet_endpoint := "/alarmdecoder" |} in
  r.2 = Ok tt
  ∧ delivered r.1 = delivered quiet_world ++ map (λ l, (l.1, packet)) (sockets quiet_world)
  ∧ {| log_level := ERROR; log_text := "Error while testing device open." |}
      ∈ app_log r.1.
Proof.
  apply (test_open_reports_a_failed_open
           (scenario (network_settings false) None None
              (Raises (NoDeviceError "Error opening device at 10.0.0.5:10000"))
              close_once)
           "Connection refused"
           {| devicetype := SocketDevice;
              interface := IAddr (VStr "10.0.0.5") (VInt 10000);
              ssl := false; ssl_ca := None; ssl_certificate := None;
              ssl_key := None; events_bound := false; conn := Unopened |}
           (NoDeviceError "Error opening device at 10.0.0.5:10000") quiet_world).
  - reflexivity.
  - reflexivity.
  - reflexivity.
  - reflexivity.
  - intros session sock _. reflexivity.
Defined.

(** ** The device tests under any schedule *)

(** A test that can no longer report: its callback is out of the
    handler list, the reader thread is not inside it, and the timer is
    past waiting with nothing left to run. *)
Definition quiet (cb : nat) (st : TestState) : Prop :=
  registered cb st = false
  ∧ device_thread st = []
  ∧ timer st ≠ Waiting
  ∧ (timer_thread st = None ∨ timer_thread st = Some []).

Lemma quiet_tick name cb t st :
  quiet cb st →
  let st' := tick name cb t st in
  quiet cb st'
  ∧ reports st' = reports st ∧ handlers st' = handlers st
  ∧ errors st' = errors st ∧ removed st' = removed st.
Proof.
  intros (Hreg & Hd & Ht & Htt).
  destruct st as [tm h r n e tt dt]. unfold quiet, registered in *.
  simpl in *. subst dt.
  destruct t; simpl.
  - destruct Htt as [-> | ->], tm; try done; simpl; by repeat split; auto.
  - unfold registered; simpl. rewrite Hreg. by repeat split.
  - destruct Htt as [-> | ->]; simpl; by repeat split; auto.
  - by repeat split.
Qed.

Lemma quiet_schedule name cb schedule st :
  quiet cb st →
  let st' := run_schedule name cb schedule st in
  quiet cb st'
  ∧ reports st' = reports st ∧ handlers st' = handlers st
  ∧ errors st' = errors st ∧ removed st' = removed st.
Proof.
  revert st. induction schedule as [|t schedule IH]; intros st Hq; cbv zeta.
  - done.
  - rewrite run_schedule_cons.
    destruct (quiet_tick name cb t st Hq) as (Hq' & Hr & Hh & He & Hn).
    destruct (IH _ Hq') as (Hq'' & Hr' & Hh' & He' & Hn').
    split; [done|]. repeat split; congruence.
Qed.

(** X24.  A test that is started without a device never reports: the
    [except] block cancels the timer and then fails itself on
    [device.on_...], so the method raises [AttributeError] before its
    FAIL broadcast, and whatever the timer and the reader thread do
    afterwards, no report is broadcast and no handler list changes. *)
Theorem test_without_device_never_reports
    name others cb prepare command schedule :
  cb ∉ others →
  let r := start name false prepare command cb (fresh others) in
  let final := run_schedule name cb schedule r.1 in
  r.2 = Raise (AttributeError "'NoneType' object has no attribute")
  ∧ reports final = []
  ∧ handlers final = others
  ∧ errors final = [].
Proof.
  intros Hfresh. cbv zeta.
  assert (Hq : quiet cb (start name false prepare command cb (fresh others)).1).
  { destruct name; unfold quiet, registered; simpl;
      rewrite (not_registered others cb Hfresh); by repeat split; auto. }
  destruct (quiet_schedule name cb schedule _ Hq) as (_ & -> & -> & -> & _).
  by destruct name.
Qed.

Lemma test_without_device_never_reports_witness :
  let r := start Config false (Returns tt) (Returns tt) 7%nat (fresh [3%nat]) in
  let final :=
    run_schedule Config 7%nat [Expire; Emit true; StepDevice; StepTimer] r.1 in
  r.2 = Raise (AttributeError "'NoneType' object has no attribute")
  ∧ reports final = []
  ∧ handlers final = [3%nat]
  ∧ errors final = [].
Proof.
  apply (test_without_device_never_reports Config [3%nat] 7%nat
           (Returns tt) (Returns tt) [Expire; Emit true; StepDevice; StepTimer]).
  by apply (bool_decide_unpack _).
Defined.




Fixpoint has_remove (prog : list Stmt) : bool :=
  match prog with
  | [] => false
  | Remove :: _ => true
  | _ :: rest => has_remove rest
  end.





Lemma has_remove_tail prog :
  has_remove (tail prog) = true → has_remove prog = true.
Proof. destruct prog as [|[] rest]; simpl; auto. Qed.







